(** * webui.py: the log-broadcast subsystem

    A shallow embedding of [src/webui.py]: the connection registry
    ([websocket_clients]), the broadcast hub ([broadcast_log_message]), the
    line-assembling stream interceptor ([TeeLoggerStream]) and the logging
    rewire ([attach_handler_to_all_loggers]).

    Conventions of the embedding.
    - A Python [str] is a list of Unicode code points ([N]).
    - Effects are explicit: a computation takes the state it may mutate and
      returns the new state, the trace of observable events it produced, and
      how it ended: with a value, with an exception of class [Exception]
      (the ones [except Exception] catches), or with one that is not
      ([asyncio.CancelledError], [KeyboardInterrupt]).
    - What the surroundings do is an input of the model ([Env]): what a
      connection's [send] does, whether a write of [debug] to
      [sys.__stdout__] raises, and whether the calling thread has, or is
      run by, an event loop.
    - [asyncio.gather] and [asyncio.run_coroutine_threadsafe] are modelled
      as CPython 3.11 defines them.
    - [debug] is recorded in the trace when it is called; the call may then
      raise.
    - A coroutine that [ws.send] returns is not awaited by the hub call
      (lines 61-65 raise before anything is handed to [websocket_loop]).
      What the interpreter then writes to [sys.stderr] on its own account
      (the warning about a coroutine that was never awaited, a deprecation
      warning of [asyncio.gather]) is a write of its own, which line 146
      sends through a [TeeLoggerStream] again; it is outside the model.
      The events of a hub call are those of its own body, and the theorems
      whose statement depends on such a write assume that no [send]
      returns a coroutine. *)

From Stdlib Require Import List NArith Lia Bool Ascii String.
From stdpp Require Import gmap strings list fin_maps.
Import ListNotations.

Local Open Scope N_scope.

(** ** Python strings *)

Module PyStr.

(** Code point of ["\n"], the only line terminator [write] looks for. *)
Definition NL : N := 10.

(** [str.isspace] on one code point: the characters [str.strip()] removes
    (CPython's [_PyUnicode_IsWhitespace]). *)
Definition isspace (c : N) : bool :=
  ((9 <=? c) && (c <=? 13)) || ((28 <=? c) && (c <=? 32))
  || (c =? 133) || (c =? 160) || (c =? 5760)
  || ((8192 <=? c) && (c <=? 8202))
  || (c =? 8232) || (c =? 8233) || (c =? 8239) || (c =? 8287)
  || (c =? 12288).

Fixpoint lstrip (s : list N) : list N :=
  match s with
  | [] => []
  | c :: s' => if isspace c then lstrip s' else s
  end.

Definition rstrip (s : list N) : list N := rev (lstrip (rev s)).

(** [s.strip()] *)
Definition strip (s : list N) : list N := rstrip (lstrip s).

(** Truthiness of a string: [if s:] *)
Definition truthy (s : list N) : bool :=
  match s with [] => false | _ :: _ => true end.

(** ["\n" in s] *)
Definition contains_nl (s : list N) : bool := existsb (N.eqb NL) s.

(** [s.split("\n")]: never the empty list. *)
Fixpoint split_nl (s : list N) : list (list N) :=
  match s with
  | [] => [[]]
  | c :: s' =>
      if c =? NL then [] :: split_nl s'
      else match split_nl s' with
           | [] => [[c]]
           | l :: ls => (c :: l) :: ls
           end
  end.

(** A string literal as code points (ASCII literals only). *)
Fixpoint of_string (s : string) : list N :=
  match s with
  | EmptyString => []
  | String a s' => Ascii.N_of_ascii a :: of_string s'
  end.


End PyStr.

Abbreviation str := (list N) (only parsing).
Abbreviation conn := nat (only parsing).

(** ** Effects: state, trace and exceptions *)

(** Exception classes; all derive from [Exception]. *)
Inductive Exception : Type :=
| KeyError
| TypeError
| RuntimeError
| OSError
| UnicodeEncodeError
| ConnectionClosed.

(** How a call ends.  [Cancelled] stands for an exception that is not of
    class [Exception] ([asyncio.CancelledError], [KeyboardInterrupt]):
    [except Exception] does not catch it. *)
Inductive Outcome (A : Type) : Type :=
| Return (a : A)
| Raise (e : Exception)
| Cancelled.
Arguments Return {A} a.
Arguments Raise {A} e.
Arguments Cancelled {A}.

(** The messages [debug] prints, by call site. *)
Inductive Diagnostic : Type :=
| DbgConnected (n : nat)                    (* line 24 *)
| DbgRecvException (e : Exception)          (* line 29 *)
| DbgDisconnected (n : nat)                 (* line 32 *)
| DbgNoClients (message : str)              (* line 48 *)
| DbgBroadcast (message : str) (n : nat)    (* line 51 *)
| DbgFilterFailed (e : Exception)           (* line 57 *)
| DbgHandlerException (e : Exception).      (* lines 67 and 102 *)

Inductive Event : Type :=
| EvDebug (d : Diagnostic)           (* debug(d) called *)
| EvSinkWrite (chunk : str)          (* original_stream.write(chunk) called *)
| EvSinkFlush                        (* original_stream.flush() called *)
| EvSinkClose                        (* original_stream.close() called *)
| EvHub (line : str)                 (* broadcast_log_message(line) entered *)
| EvSendCall (ws : conn) (message : str)  (* ws.send(message) evaluated *)
| EvTask (tasks : list conn)         (* tasks made on the caller's running loop *)
| EvSubmit (tasks : list conn)       (* work handed to websocket_loop *)
| EvFrame (ws : conn) (message : str).    (* one text frame reached ws *)

(** What [ws.send(message)] does: the call itself raises, or it returns a
    coroutine that, if it were awaited, would deliver the frame or raise. *)
Inductive SendBehaviour : Type :=
| SendRaises (e : Exception)
| SendDelivers
| SendFails (e : Exception).

(** The event loop of the calling thread, as [asyncio] sees it: none
    ([asyncio.get_event_loop()] raises [RuntimeError], as in a worker
    thread), one that is not running (the main thread), or one that is
    running the caller (the call is made from a coroutine or a callback). *)
Inductive CallerLoop : Type :=
| NoLoop
| IdleLoop
| RunningLoop.

(** The surroundings of the program.
    - [ws_send ws message]: what [ws.send(message)] does.
    - [stdout_fails d]: the exception that writing the diagnostic [d] to
      [sys.__stdout__] raises (an unencodable character, a closed stream),
      if it raises.
    - [caller_loop]: the event loop of the thread that calls
      [broadcast_log_message]. *)
Record Env : Type := {
  ws_send : nat -> list N -> SendBehaviour;
  stdout_fails : Diagnostic -> option Exception;
  caller_loop : CallerLoop
}.

Definition M (St A : Type) : Type := St -> St * list Event * Outcome A.

Definition ret {St A} (a : A) : M St A := fun s => (s, [], Return a).

Definition raise {St A} (e : Exception) : M St A := fun s => (s, [], Raise e).

(** An exception that is not of class [Exception] reaches this point. *)
Definition cancel {St A} : M St A := fun s => (s, [], Cancelled).

Definition bind {St A B} (m : M St A) (k : A -> M St B) : M St B :=
  fun s =>
    match m s with
    | (s1, tr1, Return a) =>
        match k a s1 with
        | (s2, tr2, r) => (s2, tr1 ++ tr2, r)
        end
    | (s1, tr1, Raise e) => (s1, tr1, Raise e)
    | (s1, tr1, Cancelled) => (s1, tr1, Cancelled)
    end.

(** [try: m  except Exception as e: h e] *)
Definition try_except {St A} (m : M St A) (h : Exception -> M St A) : M St A :=
  fun s =>
    match m s with
    | (s1, tr1, Return a) => (s1, tr1, Return a)
    | (s1, tr1, Raise e) =>
        match h e s1 with
        | (s2, tr2, r) => (s2, tr1 ++ tr2, r)
        end
    | (s1, tr1, Cancelled) => (s1, tr1, Cancelled)
    end.

(** [try: m  finally: fin]: [fin] always runs; when [fin] does not return
    normally, its exception replaces the outcome of [m]. *)
Definition try_finally {St A} (m : M St A) (fin : M St unit) : M St A :=
  fun s =>
    match m s with
    | (s1, tr1, r) =>
        match fin s1 with
        | (s2, tr2, Return _) => (s2, tr1 ++ tr2, r)
        | (s2, tr2, Raise e) => (s2, tr1 ++ tr2, Raise e)
        | (s2, tr2, Cancelled) => (s2, tr1 ++ tr2, Cancelled)
        end
    end.

Definition tell {St} (ev : Event) : M St unit := fun s => (s, [ev], Return tt).

Definition gets {St A} (f : St -> A) : M St A := fun s => (s, [], Return (f s)).

Definition modify {St} (f : St -> St) : M St unit := fun s => (f s, [], Return tt).

(** [debug(msg)], lines 17-19: the write to [sys.__stdout__], or the flush
    after it, may raise. *)
Definition debug {St} (env : Env) (d : Diagnostic) : M St unit :=
  bind (tell (EvDebug d))
       (fun _ => match stdout_fails env d with
                 | None => ret tt
                 | Some e => raise e
                 end).

Declare Scope eff_scope.
Delimit Scope eff_scope with eff.
Notation "x <~ m ;; k" := (bind m (fun x => k))
  (at level 100, m at next level, k at level 200, right associativity) : eff_scope.
Notation "m ;;; k" := (bind m (fun _ => k))
  (at level 100, k at level 200, right associativity) : eff_scope.

(** [for x in xs: body x] *)
Fixpoint for_each {St A} (xs : list A) (body : A -> M St unit) : M St unit :=
  match xs with
  | [] => ret tt
  | x :: xs' => bind (body x) (fun _ => for_each xs' body)
  end.

(** The three components of a run. *)
Definition state_of {St R} (r : St * list Event * R) : St := fst (fst r).
Definition trace_of {St R} (r : St * list Event * R) : list Event := snd (fst r).
Definition outcome_of {St R} (r : St * list Event * R) : R := snd r.

(** ** Connection registry and event-loop handle (lines 13-14) *)

(** The handle [websocket_server] publishes at line 37. *)
Inductive EventLoop : Type :=
| LoopRunning.

Record Globals : Type := {
  websocket_clients : gset nat;
  websocket_loop : option EventLoop
}.

Definition set_clients (f : gset nat -> gset nat) (g : Globals) : Globals :=
  {| websocket_clients := f (websocket_clients g);
     websocket_loop := websocket_loop g |}.

(** [websocket_clients.add(websocket)], line 23 *)
Definition clients_add (websocket : conn) : M Globals unit :=
  modify (set_clients (fun s => {[websocket]} ∪ s)).

(** [websocket_clients.remove(websocket)], line 31: [set.remove] raises
    [KeyError] when the element is absent. *)
Definition clients_remove (websocket : conn) : M Globals unit :=
  fun g =>
    if decide (websocket ∈ websocket_clients g)
    then modify (set_clients (fun s => s ∖ {[websocket]})) g
    else raise KeyError g.

(** How the [async for] of lines 26-27 ends: the connection is closed, the
    iteration raises an exception of class [Exception], or the task is
    cancelled ([asyncio.CancelledError], which line 28 does not catch). *)
Inductive ReadEnd : Type :=
| ReadClosed
| ReadError (e : Exception)
| ReadCancelled.

(** Lines 23-24: the part of [websocket_handler] before the read loop. *)
Definition handler_enter (env : Env) (websocket : conn) : M Globals unit :=
  (clients_add websocket ;;;
   n <~ gets (fun g => size (websocket_clients g)) ;;
   debug env (DbgConnected n))%eff.

(** Lines 31-32: the [finally] block. *)
Definition handler_finally (env : Env) (websocket : conn) : M Globals unit :=
  (clients_remove websocket ;;;
   n <~ gets (fun g => size (websocket_clients g)) ;;
   debug env (DbgDisconnected n))%eff.

(** Lines 25-32: the read loop has ended with [r]. *)
Definition handler_leave (env : Env) (websocket : conn) (r : ReadEnd) : M Globals unit :=
  try_finally
    (try_except
       (match r with
        | ReadClosed => ret tt
        | ReadError e => raise e
        | ReadCancelled => cancel
        end)
       (fun e => debug env (DbgRecvException e)))
    (handler_finally env websocket).

(** [websocket_handler] when nothing else touches the registry meanwhile. *)
Definition websocket_handler (env : Env) (websocket : conn) (r : ReadEnd)
    : M Globals unit :=
  (handler_enter env websocket ;;; handler_leave env websocket r)%eff.

(** ** Broadcast hub (lines 46-67) *)

(** A coroutine object returned by [ws.send(message)]; [co_fails] is what
    awaiting it would raise. *)
Record Coroutine : Type := {
  co_ws : nat;
  co_message : list N;
  co_fails : option Exception
}.

(** Lines 53-57, one iteration: [try: send_tasks.append(ws.send(message))
    except Exception as e: debug(...)]. *)
Definition collect_send (env : Env) (message : str) (ws : conn)
    (send_tasks : list Coroutine) : M Globals (list Coroutine) :=
  (tell (EvSendCall ws message) ;;;
   try_except
     (match ws_send env ws message with
      | SendRaises e => raise e
      | SendDelivers =>
          ret (send_tasks ++ [{| co_ws := ws; co_message := message; co_fails := None |}])
      | SendFails e =>
          ret (send_tasks ++ [{| co_ws := ws; co_message := message; co_fails := Some e |}])
      end)
     (fun e => debug env (DbgFilterFailed e) ;;; ret send_tasks))%eff.

(** Lines 52-57: the loop over [websocket_clients.copy()]. *)
Fixpoint collect_sends (env : Env) (message : str) (snapshot : list nat)
    (send_tasks : list Coroutine) : M Globals (list Coroutine) :=
  match snapshot with
  | [] => ret send_tasks
  | ws :: rest =>
      bind (collect_send env message ws send_tasks)
           (fun tasks => collect_sends env message rest tasks)
  end.

(** What line 61 passes to [run_coroutine_threadsafe]: a coroutine object,
    or the Future that [asyncio.gather] returns. *)
Inductive Awaitable : Type :=
| AwCoroutine (c : Coroutine)
| AwGather (children : list Coroutine).

(** [asyncio.gather(coros, return_exceptions=True)], line 62, evaluated in
    the calling thread: [ensure_future] makes a task of each coroutine on
    the loop [events._get_event_loop()] gives, the loop running in that
    thread if there is one, else the thread's own loop, and raises
    [RuntimeError] in a thread that has none.  The value is a Future.  The
    tasks of a loop that is not running do not run; those of a running
    loop run once the caller has given control back to it, after the hub
    call. *)
Definition gather (env : Env) (coros : list Coroutine) : M Globals Awaitable :=
  match caller_loop env with
  | NoLoop => raise RuntimeError
  | IdleLoop => ret (AwGather coros)
  | RunningLoop =>
      bind (tell (EvTask (map co_ws coros))) (fun _ => ret (AwGather coros))
  end.

(** [asyncio.run_coroutine_threadsafe(coro, loop).result()], lines 61-65:
    [if not coroutines.iscoroutine(coro): raise TypeError] comes before
    anything is scheduled; a coroutine is handed to the loop, and [result]
    waits for it and returns its value or raises its exception. *)
Definition run_coroutine_threadsafe_result (a : Awaitable) (loop : EventLoop)
    : M Globals unit :=
  match a with
  | AwCoroutine c =>
      bind (tell (EvSubmit [co_ws c]))
           (fun _ => match co_fails c with
                     | None => tell (EvFrame (co_ws c) (co_message c))
                     | Some e => raise e
                     end)
  | AwGather _ => raise TypeError
  end.

(** Lines 61-65. *)
Definition submit_and_wait (env : Env) (loop : EventLoop) (tasks : list Coroutine)
    : M Globals unit :=
  bind (gather env tasks) (fun a => run_coroutine_threadsafe_result a loop).

Definition broadcast_log_message (env : Env) (message : str) : M Globals unit :=
  (tell (EvHub message) ;;;
   clients <~ gets websocket_clients ;;
   if decide (clients = ∅) then
     debug env (DbgNoClients message)
   else
     debug env (DbgBroadcast message (size clients)) ;;;
     send_tasks <~ collect_sends env message (elements clients) [] ;;
     loop <~ gets websocket_loop ;;
     match send_tasks, loop with
     | _ :: _, Some l =>
         try_except
           (submit_and_wait env l send_tasks)
           (fun e => debug env (DbgHandlerException e))
     | _, _ => ret tt
     end)%eff.

(** ** Line assembler (lines 70-93) *)

(** The interface [TeeLoggerStream] expects of the stream it wraps.  Each
    method returns the stream after the call and what the call did. *)
Class Stream (S : Type) : Type := {
  stream_write : S -> list N -> S * Outcome unit;
  stream_flush : S -> S * Outcome unit;
  stream_isatty : S -> bool;
  stream_close : S -> S * Outcome unit
}.

Record TeeLoggerStream (S : Type) : Type := {
  original_stream : S;
  _buffer : list N
}.
Arguments original_stream {S} t.
Arguments _buffer {S} t.

(** [TeeLoggerStream(original_stream)], lines 71-73 *)
Definition init {S} (stream : S) : TeeLoggerStream S :=
  {| original_stream := stream; _buffer := [] |}.

Definition set_buffer {S} (b : str) (t : TeeLoggerStream S) : TeeLoggerStream S :=
  {| original_stream := original_stream t; _buffer := b |}.

(** A method call on [self.original_stream], recorded in the trace. *)
Definition sink_call {S} (ev : Event) (method : S -> S * Outcome unit)
    : M (TeeLoggerStream S) unit :=
  fun t =>
    match method (original_stream t) with
    | (s', r) => ({| original_stream := s'; _buffer := _buffer t |}, [ev], r)
    end.

(** Running a computation on one component of the pair (globals, tee). *)
Definition on_globals {T A} (m : M Globals A) : M (Globals * T) A :=
  fun w =>
    match m (fst w) with
    | (g', tr, r) => ((g', snd w), tr, r)
    end.

Definition on_tee {T A} (m : M T A) : M (Globals * T) A :=
  fun w =>
    match m (snd w) with
    | (t', tr, r) => ((fst w, t'), tr, r)
    end.

Section Tee.
Context {S : Type} `{Stream S}.

(** Lines 81-83, the body of the loop over [lines[:-1]].  The hub works on
    the globals only; a write of the interpreter to [sys.stderr] while the
    hub runs (the warning about a coroutine that was never awaited) is not
    part of the model. *)
Definition emit_line (env : Env) (line : str) : M (Globals * TeeLoggerStream S) unit :=
  if PyStr.truthy (PyStr.strip line)
  then on_globals (broadcast_log_message env (PyStr.strip line))
  else ret tt.

(** [TeeLoggerStream.write], lines 75-84 *)
Definition write (env : Env) (message : str) : M (Globals * TeeLoggerStream S) unit :=
  (on_tee (sink_call (EvSinkWrite message) (fun s => stream_write s message)) ;;;
   on_tee (sink_call EvSinkFlush stream_flush) ;;;
   on_tee (modify (fun t => set_buffer (_buffer t ++ message) t)) ;;;
   buf <~ on_tee (gets _buffer) ;;
   if PyStr.contains_nl buf then
     let lines := PyStr.split_nl buf in
     for_each (removelast lines) (emit_line env) ;;;
     on_tee (modify (set_buffer (List.last lines [])))
   else ret tt)%eff.

(** [TeeLoggerStream.flush], lines 86-87 *)
Definition flush : M (Globals * TeeLoggerStream S) unit :=
  on_tee (sink_call EvSinkFlush stream_flush).

(** [TeeLoggerStream.isatty], lines 89-90 *)
Definition isatty : M (Globals * TeeLoggerStream S) bool :=
  on_tee (gets (fun t => stream_isatty (original_stream t))).

(** [TeeLoggerStream.close], lines 92-93: [pass] *)
Definition close : M (Globals * TeeLoggerStream S) unit := ret tt.

(** A close that delegates to the wrapped stream, as the specification
    words it ("delegate only to the original sink"); compared with [close]. *)
Definition close_delegating : M (Globals * TeeLoggerStream S) unit :=
  on_tee (sink_call EvSinkClose stream_close).

(** A caller issuing one [write] per chunk, whatever each call does. *)
Fixpoint write_all (env : Env) (chunks : list (list N)) (w : Globals * TeeLoggerStream S)
    : (Globals * TeeLoggerStream S) * list Event * list (Outcome unit) :=
  match chunks with
  | [] => (w, [], [])
  | chunk :: rest =>
      match write env chunk w with
      | (w1, tr1, r) =>
          match write_all env rest w1 with
          | (w2, tr2, rs) => (w2, tr1 ++ tr2, r :: rs)
          end
      end
  end.

End Tee.

(** *** Observations on traces *)

(** The lines handed to the broadcast hub, in order. *)
Fixpoint hub_lines (tr : list Event) : list (list N) :=
  match tr with
  | [] => []
  | EvHub line :: tr' => line :: hub_lines tr'
  | _ :: tr' => hub_lines tr'
  end.

(** The chunks passed to the wrapped stream's [write], in order. *)
Fixpoint sink_chunks (tr : list Event) : list (list N) :=
  match tr with
  | [] => []
  | EvSinkWrite chunk :: tr' => chunk :: sink_chunks tr'
  | _ :: tr' => sink_chunks tr'
  end.

(** The connections a frame reached, in order. *)
Fixpoint frames (tr : list Event) : list (nat * list N) :=
  match tr with
  | [] => []
  | EvFrame ws message :: tr' => (ws, message) :: frames tr'
  | _ :: tr' => frames tr'
  end.

(** Calls of [ws.send] (coroutines created), in order. *)
Fixpoint send_calls (tr : list Event) : list nat :=
  match tr with
  | [] => []
  | EvSendCall ws _ :: tr' => ws :: send_calls tr'
  | _ :: tr' => send_calls tr'
  end.

(** Submissions to the event loop, in order. *)
Fixpoint submissions (tr : list Event) : list (list nat) :=
  match tr with
  | [] => []
  | EvSubmit tasks :: tr' => tasks :: submissions tr'
  | _ :: tr' => submissions tr'
  end.

(** *** A recording stream, for concrete runs *)

Record RecSink : Type := {
  rs_written : list (list N);
  rs_flushes : nat;
  rs_closed : bool;
  rs_write_fails : option Exception;
  rs_flush_fails : option Exception
}.

#[export] Instance RecSink_Stream : Stream RecSink := {|
  stream_write s chunk :=
    match rs_write_fails s with
    | Some e => (s, Raise e)
    | None =>
        ({| rs_written := rs_written s ++ [chunk]; rs_flushes := rs_flushes s;
            rs_closed := rs_closed s; rs_write_fails := None;
            rs_flush_fails := rs_flush_fails s |}, Return tt)
    end;
  stream_flush s :=
    match rs_flush_fails s with
    | Some e => (s, Raise e)
    | None =>
        ({| rs_written := rs_written s; rs_flushes := Datatypes.S (rs_flushes s);
            rs_closed := rs_closed s; rs_write_fails := rs_write_fails s;
            rs_flush_fails := None |}, Return tt)
    end;
  stream_isatty _ := false;
  stream_close s :=
    ({| rs_written := rs_written s; rs_flushes := rs_flushes s;
        rs_closed := true; rs_write_fails := rs_write_fails s;
        rs_flush_fails := rs_flush_fails s |}, Return tt)
|}.

Definition fresh_sink (write_fails flush_fails : option Exception) : RecSink :=
  {| rs_written := []; rs_flushes := 0; rs_closed := false;
     rs_write_fails := write_fails; rs_flush_fails := flush_fails |}.

(** ** Logging: the adapter and the rewire (lines 96-119)

    The part of the [logging] module (CPython 3.11) the rewire relies on.
    A dotted logger name is the list of its components, innermost first:
    ["a.b.c"] is [["c"; "b"; "a"]] and its parent name is the tail.
    [loggerDict] maps a name to a logger or to a placeholder.  A logger
    object is referred to by the key it is stored under, the root logger
    by [[]]; the parent of a logger is the nearest ancestor key holding a
    logger, else the root, which is how [logging] keeps [Logger.parent].
    [logging.getLogger] resolves a name to such a reference: no name and
    the name ["root"] give the root logger, whatever [loggerDict] holds
    under the key ["root"].  A handler's own filters act inside
    [Handler.handle]; the handler of line 141 has none. *)

Module Logging.


Record Handler : Type := { h_id : nat; h_level : N }.

#[export] Instance Handler_eq_dec : EqDecision Handler.
Proof. solve_decision. Defined.

Record LogRecord : Type := { levelno : N; msg : list N }.

Record Logger : Type := {
  handlers : list Handler;
  level : N;
  propagate : bool;
  disabled : bool;
  filters : list (LogRecord -> bool)
}.

Inductive Entry : Type :=
| ELogger (l : Logger)
| EPlaceHolder.







(** [Manager._fixupParents]: a placeholder for every missing ancestor name,
    up to the first one that holds a logger. *)
Fixpoint fixupParents (name : list string) (d : gmap (list string) Entry)
    : gmap (list string) Entry :=
  match name with
  | [] => d
  | _ :: parent =>
      match d !! name with
      | None => fixupParents parent (<[name := EPlaceHolder]> d)
      | Some (ELogger _) => d
      | Some EPlaceHolder => fixupParents parent d
      end
  end.















(** [Filterer.filter(record)] *)
Definition filter (l : Logger) (r : LogRecord) : bool :=
  forallb (fun f => f r) (filters l).





(** [BroadcastingHandler.emit], lines 97-102; [format] stands for
    [self.format]. *)
Definition emit (format : LogRecord -> Outcome (list N)) (env : Env) (record : LogRecord)
    : M Globals unit :=
  try_except
    (msg <~ (match format record with
             | Return s => ret s
             | Raise e => raise e
             | Cancelled => cancel
             end) ;;
     broadcast_log_message env msg)%eff
    (fun e => debug env (DbgHandlerException e)).



End Logging.

(** ** Closed forms and concrete inputs used by the proofs *)

(** Every write of [debug] to [sys.__stdout__] succeeds. *)
Definition quiet_stdout (env : Env) : Prop :=
  forall d, stdout_fails env d = None.

(** [ws.send(message)] returns a coroutine object: the call does not raise. *)
Definition creates_coroutine (b : SendBehaviour) : bool :=
  match b with
  | SendRaises _ => false
  | _ => true
  end.

(** No [ws.send] of a registered connection returns a coroutine: there is
    none left to be reported as never awaited. *)
Definition no_coroutine (env : Env) (g : Globals) : Prop :=
  forall ws message,
    ws ∈ websocket_clients g -> creates_coroutine (ws_send env ws message) = false.

(** A call that did not return raised what a diagnostic write raised. *)
Definition returned_or_stdout_failed {A} (env : Env) (r : Outcome A) : Prop :=
  match r with
  | Return _ => True
  | Raise e => exists d, stdout_fails env d = Some e
  | Cancelled => False
  end.

(** The events of lines 47-57: a diagnostic, or the evaluation of
    [ws.send(message)]. *)
Definition is_plain (ev : Event) : bool :=
  match ev with
  | EvDebug _ | EvSendCall _ _ => true
  | _ => false
  end.

(** Events that stay in the calling thread: a diagnostic, the evaluation
    of [ws.send(message)], or a task made on the loop of that thread. *)
Definition is_local (ev : Event) : bool :=
  match ev with
  | EvDebug _ | EvSendCall _ _ | EvTask _ => true
  | _ => false
  end.

(** The tasks [asyncio.gather] made on a running loop, in order. *)
Fixpoint tasks_made (tr : list Event) : list (list nat) :=
  match tr with
  | [] => []
  | EvTask tasks :: tr' => tasks :: tasks_made tr'
  | _ :: tr' => tasks_made tr'
  end.

(** The coroutine [ws.send(message)] returns, when it returns one. *)
Definition task_of (env : Env) (message : str) (ws : conn) : list Coroutine :=
  match ws_send env ws message with
  | SendRaises _ => []
  | SendDelivers => [{| co_ws := ws; co_message := message; co_fails := None |}]
  | SendFails e => [{| co_ws := ws; co_message := message; co_fails := Some e |}]
  end.

(** The events of one iteration of lines 53-57. *)
Definition send_trace (env : Env) (message : str) (ws : conn) : list Event :=
  EvSendCall ws message ::
  match ws_send env ws message with
  | SendRaises e => [EvDebug (DbgFilterFailed e)]
  | _ => []
  end.

(** The exception lines 61-65 raise. *)
Definition bridge_exception (env : Env) : Exception :=
  match caller_loop env with
  | NoLoop => RuntimeError
  | _ => TypeError
  end.

(** The events of lines 61-65. *)
Definition bridge_trace (env : Env) (tasks : list Coroutine) : list Event :=
  match caller_loop env with
  | RunningLoop => [EvTask (map co_ws tasks)]
  | _ => []
  end.

(** The events of lines 59-67. *)
Definition loop_trace (env : Env) (loop : option EventLoop) (tasks : list Coroutine)
    : list Event :=
  match tasks, loop with
  | _ :: _, Some _ =>
      bridge_trace env tasks ++ [EvDebug (DbgHandlerException (bridge_exception env))]
  | _, _ => []
  end.

(** The events of one call of [broadcast_log_message] when every
    diagnostic write succeeds. *)
Definition hub_trace (env : Env) (message : str) (g : Globals) : list Event :=
  EvHub message ::
  if decide (websocket_clients g = ∅) then [EvDebug (DbgNoClients message)]
  else
    EvDebug (DbgBroadcast message (size (websocket_clients g))) ::
    flat_map (send_trace env message) (elements (websocket_clients g)) ++
    loop_trace env (websocket_loop g)
      (flat_map (task_of env message) (elements (websocket_clients g))).

(** The diagnostics printed by [debug], in order. *)
Fixpoint diagnostics (tr : list Event) : list Diagnostic :=
  match tr with
  | [] => []
  | EvDebug d :: tr' => d :: diagnostics tr'
  | _ :: tr' => diagnostics tr'
  end.

(** Concrete registries, surroundings and tees for the runs below. *)
Definition demo_line : list N := PyStr.of_string "hi".

Definition three_clients (loop : option EventLoop) : Globals :=
  {| websocket_clients := {[1%nat; 2%nat; 3%nat]}; websocket_loop := loop |}.

Definition one_client (loop : option EventLoop) : Globals :=
  {| websocket_clients := {[1%nat]}; websocket_loop := loop |}.

Definition no_clients (loop : option EventLoop) : Globals :=
  {| websocket_clients := ∅; websocket_loop := loop |}.

Definition mixed_net : nat -> list N -> SendBehaviour :=
  fun ws _ =>
    match ws with
    | 1%nat => SendDelivers
    | 2%nat => SendFails OSError
    | _ => SendRaises TypeError
    end.

Definition good_net : nat -> list N -> SendBehaviour := fun _ _ => SendDelivers.

(** A network on which every send fails once awaited. *)
Definition hostile_net : nat -> list N -> SendBehaviour := fun _ _ => SendFails ConnectionClosed.

(** A network on which every call of [send] raises. *)
Definition closed_net : nat -> list N -> SendBehaviour := fun _ _ => SendRaises ConnectionClosed.

(** The main thread, with a stdout that takes every diagnostic. *)
Definition main_env (net : nat -> list N -> SendBehaviour) : Env :=
  {| ws_send := net; stdout_fails := fun _ => None; caller_loop := IdleLoop |}.

(** A worker thread, with a stdout that takes every diagnostic. *)
Definition worker_env (net : nat -> list N -> SendBehaviour) : Env :=
  {| ws_send := net; stdout_fails := fun _ => None; caller_loop := NoLoop |}.


(** A lone surrogate, which UTF-8 cannot encode. *)
Definition has_surrogate (s : list N) : bool :=
  existsb (fun c => (55296 <=? c) && (c <=? 57343)) s.

(** A UTF-8 [sys.__stdout__]: a diagnostic that embeds a line holding a
    lone surrogate raises [UnicodeEncodeError]. *)
Definition utf8_stdout (d : Diagnostic) : option Exception :=
  match d with
  | DbgNoClients message | DbgBroadcast message _ =>
      if has_surrogate message then Some UnicodeEncodeError else None
  | _ => None
  end.

Definition utf8_env (net : nat -> list N -> SendBehaviour) : Env :=
  {| ws_send := net; stdout_fails := utf8_stdout; caller_loop := IdleLoop |}.

(** A [sys.__stdout__] that is closed: every diagnostic write raises. *)
Definition closed_stdout_env (net : nat -> list N -> SendBehaviour) : Env :=
  {| ws_send := net; stdout_fails := fun _ => Some OSError; caller_loop := IdleLoop |}.

(** The line ["\ud800"]. *)
Definition surrogate_line : list N := [55296].

(** The connection's send does not fail. *)
Definition delivers (env : Env) (message : str) (ws : conn) : bool :=
  match ws_send env ws message with SendDelivers => true | _ => false end.

(** The diagnostics of line 57 over a snapshot: one per [ws.send] that raised. *)
Definition filter_failures (env : Env) (message : str) (snapshot : list nat)
    : list Diagnostic :=
  flat_map (fun ws => match ws_send env ws message with
                      | SendRaises e => [DbgFilterFailed e]
                      | _ => []
                      end) snapshot.

(** ** The line assembler, in closed form *)

(** A line as a tee hands it to the hub: not empty, nothing left to trim,
    no terminator inside. *)
Definition log_line (l : list N) : Prop :=
  l <> [] /\ PyStr.strip l = l /\ PyStr.contains_nl l = false.

(** The lines [write] extracts from a text, as the hub gets them. *)
Definition lines_of (text : list N) : list (list N) :=
  List.filter PyStr.truthy (map PyStr.strip (removelast (PyStr.split_nl text))).

(** A text of blank lines only: two spaces, a terminator, a tab, a
    terminator, a space. *)
Definition blank_text : list N := [32; 32; 10; 9; 10; 32].

(** The events of lines 81-83 for one extracted line, when every
    diagnostic write succeeds. *)
Definition line_trace (env : Env) (g : Globals) (line : str) : list Event :=
  if PyStr.truthy (PyStr.strip line) then hub_trace env (PyStr.strip line) g else [].


(** Lines 76-77 on the wrapped stream: how they end. *)
Definition forward_outcome {S : Type} `{Stream S} (s : S) (chunk : list N) : Outcome unit :=
  match stream_write s chunk with
  | (s1, Return _) => snd (stream_flush s1)
  | (_, r) => r
  end.

(** A new tee over a recording sink, with one client connected. *)
Definition fresh_tee (write_fails flush_fails : option Exception)
    : Globals * TeeLoggerStream RecSink :=
  (one_client (Some LoopRunning), init (fresh_sink write_fails flush_fails)).

(** A tee that already buffers ["ab"]. *)
Definition tee_holding_ab : Globals * TeeLoggerStream RecSink :=
  (one_client (Some LoopRunning),
   {| original_stream := fresh_sink None None; _buffer := PyStr.of_string "ab" |}).

(** The chunk ["c\nd"]. *)
Definition chunk_c_nl_d : list N := PyStr.of_string "c" ++ [PyStr.NL] ++ PyStr.of_string "d".

(** A tee that buffers ["ab"] over a sink whose flush fails. *)
Definition tee_flush_failing : Globals * TeeLoggerStream RecSink :=
  (one_client (Some LoopRunning),
   {| original_stream := fresh_sink None (Some OSError); _buffer := PyStr.of_string "ab" |}).

(** A tee that buffers ["ab"], with nobody connected. *)
Definition tee_alone : Globals * TeeLoggerStream RecSink :=
  (no_clients (Some LoopRunning),
   {| original_stream := fresh_sink None None; _buffer := PyStr.of_string "ab" |}).

(** The wrapped stream takes every chunk of the list: each [write], and the
    [flush] that follows it, returns normally. *)
Fixpoint sink_accepts {S : Type} `{Stream S} (chunks : list (list N)) (s : S) : Prop :=
  match chunks with
  | [] => True
  | chunk :: rest =>
      match stream_write s chunk with
      | (s1, Return _) =>
          match stream_flush s1 with
          | (s2, Return _) => sink_accepts rest s2
          | (_, _) => False
          end
      | (_, _) => False
      end
  end.


(** The chunk ["\ud800\n"]. *)
Definition surrogate_chunk : list N := surrogate_line ++ [PyStr.NL].

(** ** The connection handler, in closed form *)

(** The events of lines 28-29: the end of the read loop, before the
    [finally] block. *)
Definition read_end_trace (r : ReadEnd) : list Event :=
  match r with
  | ReadError e => [EvDebug (DbgRecvException e)]
  | _ => []
  end.

(** ** The rewire, in closed form *)

Section RewireDefs.
Import Logging.









End RewireDefs.




(** * Proofs *)

(** ** The hub *)

Lemma hub_lines_app tr1 tr2 : hub_lines (tr1 ++ tr2) = hub_lines tr1 ++ hub_lines tr2.
Proof. induction tr1 as [|[] tr1 IH]; simpl; rewrite ?IH; reflexivity. Qed.

Lemma sink_chunks_app tr1 tr2 : sink_chunks (tr1 ++ tr2) = sink_chunks tr1 ++ sink_chunks tr2.
Proof. induction tr1 as [|[] tr1 IH]; simpl; rewrite ?IH; reflexivity. Qed.

Lemma frames_app tr1 tr2 : frames (tr1 ++ tr2) = frames tr1 ++ frames tr2.
Proof. induction tr1 as [|[] tr1 IH]; simpl; rewrite ?IH; reflexivity. Qed.

Lemma send_calls_app tr1 tr2 : send_calls (tr1 ++ tr2) = send_calls tr1 ++ send_calls tr2.
Proof. induction tr1 as [|[] tr1 IH]; simpl; rewrite ?IH; reflexivity. Qed.

Lemma submissions_app tr1 tr2 : submissions (tr1 ++ tr2) = submissions tr1 ++ submissions tr2.
Proof. induction tr1 as [|[] tr1 IH]; simpl; rewrite ?IH; reflexivity. Qed.

Lemma tasks_made_app tr1 tr2 : tasks_made (tr1 ++ tr2) = tasks_made tr1 ++ tasks_made tr2.
Proof. induction tr1 as [|[] tr1 IH]; simpl; rewrite ?IH; reflexivity. Qed.

Lemma diagnostics_app tr1 tr2 : diagnostics (tr1 ++ tr2) = diagnostics tr1 ++ diagnostics tr2.
Proof. induction tr1 as [|[] tr1 IH]; simpl; rewrite ?IH; reflexivity. Qed.

(** A trace of local events shows nothing to the hub, the sink, the loop
    or a connection. *)
Lemma local_trace_quiet tr :
  forallb is_local tr = true ->
  hub_lines tr = [] /\ sink_chunks tr = [] /\ frames tr = [] /\ submissions tr = [].
Proof.
  induction tr as [|ev tr IH]; simpl; [done|].
  intros [Hev Htr]%andb_prop. destruct ev; try discriminate; simpl; auto.
Qed.

Lemma plain_trace_local tr :
  forallb is_plain tr = true -> forallb is_local tr = true /\ tasks_made tr = [].
Proof.
  induction tr as [|ev tr IH]; simpl; [done|].
  intros [Hev Htr]%andb_prop. destruct (IH Htr) as [IHl IHt].
  destruct ev; try discriminate; simpl; auto.
Qed.

Lemma debug_run {St} env d (s : St) :
  debug env d s =
  (s, [EvDebug d],
   match stdout_fails env d with None => Return tt | Some e => Raise e end).
Proof. unfold debug, bind, tell, ret, raise. destruct (stdout_fails env d); reflexivity. Qed.

Lemma debug_outcome env d :
  returned_or_stdout_failed env
    (match stdout_fails env d with None => Return tt | Some e => Raise e end).
Proof. destruct (stdout_fails env d) eqn:Hd; simpl; eauto. Qed.

(** One iteration of lines 53-57. *)
Lemma collect_send_run env message ws acc g :
  collect_send env message ws acc g =
  (g,
   EvSendCall ws message ::
   match ws_send env ws message with
   | SendRaises e => [EvDebug (DbgFilterFailed e)]
   | _ => []
   end,
   match ws_send env ws message with
   | SendRaises e =>
       match stdout_fails env (DbgFilterFailed e) with
       | None => Return acc
       | Some e' => Raise e'
       end
   | _ => Return (acc ++ task_of env message ws)
   end).
Proof.
  unfold collect_send, bind, tell, try_except, task_of.
  destruct (ws_send env ws message) as [e| |e]; simpl; try reflexivity.
  rewrite debug_run. destruct (stdout_fails env (DbgFilterFailed e)); reflexivity.
Qed.

(** Lines 52-57, whatever the diagnostic writes do. *)
Lemma collect_sends_general env message snapshot acc g :
  exists tr r,
    collect_sends env message snapshot acc g = (g, tr, r) /\
    forallb is_plain tr = true /\
    returned_or_stdout_failed env r.
Proof.
  revert acc. induction snapshot as [|ws rest IH]; intros acc; simpl.
  - exists [], (Return acc). done.
  - unfold bind. rewrite collect_send_run.
    destruct (ws_send env ws message) as [e| |e] eqn:Hsend.
    + destruct (stdout_fails env (DbgFilterFailed e)) as [e'|] eqn:Hd.
      * eexists _, _. split; [reflexivity|]. split; [reflexivity|]. simpl. eauto.
      * destruct (IH acc) as (tr & r & -> & Hloc & Hr).
        eexists _, _. split; [reflexivity|]. simpl. done.
    + destruct (IH (acc ++ task_of env message ws)) as (tr & r & -> & Hloc & Hr).
      eexists _, _. split; [reflexivity|]. simpl. done.
    + destruct (IH (acc ++ task_of env message ws)) as (tr & r & -> & Hloc & Hr).
      eexists _, _. split; [reflexivity|]. simpl. done.
Qed.

(** Lines 52-57 when every diagnostic write succeeds. *)
Lemma collect_sends_run env message snapshot acc g :
  quiet_stdout env ->
  collect_sends env message snapshot acc g =
  (g, flat_map (send_trace env message) snapshot,
   Return (acc ++ flat_map (task_of env message) snapshot)).
Proof.
  intros Hq. revert acc. induction snapshot as [|ws rest IH]; intros acc; simpl.
  - rewrite app_nil_r. reflexivity.
  - unfold bind. rewrite collect_send_run. unfold send_trace.
    destruct (ws_send env ws message) as [e| |e] eqn:Hsend.
    + rewrite Hq, IH. unfold task_of at 2. rewrite Hsend. reflexivity.
    + rewrite IH, <- app_assoc. reflexivity.
    + rewrite IH, <- app_assoc. reflexivity.
Qed.

Lemma bridge_trace_local env tasks :
  forallb is_local (bridge_trace env tasks) = true /\
  send_calls (bridge_trace env tasks) = [] /\
  diagnostics (bridge_trace env tasks) = [] /\
  (caller_loop env <> RunningLoop -> bridge_trace env tasks = []).
Proof. unfold bridge_trace. by destruct (caller_loop env). Qed.

(** Lines 61-65 always raise, and hand nothing to [websocket_loop]. *)
Lemma submit_and_wait_run env loop tasks g :
  submit_and_wait env loop tasks g =
  (g, bridge_trace env tasks, Raise (bridge_exception env)).
Proof.
  unfold submit_and_wait, gather, bridge_exception, bridge_trace, bind.
  destruct (caller_loop env); reflexivity.
Qed.

(** Lines 59-67. *)
Lemma bridge_run env (l : EventLoop) tasks g :
  try_except (submit_and_wait env l tasks)
             (fun e => debug env (DbgHandlerException e)) g =
  (g, bridge_trace env tasks ++ [EvDebug (DbgHandlerException (bridge_exception env))],
   match stdout_fails env (DbgHandlerException (bridge_exception env)) with
   | None => Return tt
   | Some e => Raise e
   end).
Proof.
  unfold try_except. rewrite submit_and_wait_run, debug_run. reflexivity.
Qed.

(** One call of the hub, whatever the diagnostic writes do: the registry
    and the loop handle are as before, the call is recorded once, and every
    other event is local to the calling thread; no task is made unless a
    loop is running the caller. *)
Lemma broadcast_general env message g :
  exists tr r,
    broadcast_log_message env message g = (g, EvHub message :: tr, r) /\
    forallb is_local tr = true /\
    (caller_loop env <> RunningLoop -> tasks_made tr = []) /\
    returned_or_stdout_failed env r.
Proof.
  unfold broadcast_log_message, bind at 1, tell at 1. cbv beta iota.
  unfold bind at 1, gets at 1. cbv beta iota.
  destruct (decide (websocket_clients g = ∅)) as [Hempty|Hne].
  - rewrite debug_run. eexists _, _. split; [reflexivity|].
    split; [reflexivity|]. split; [reflexivity|]. apply debug_outcome.
  - unfold bind at 1. rewrite debug_run.
    destruct (stdout_fails env (DbgBroadcast message (size (websocket_clients g)))) as [e|] eqn:Hd.
    + eexists _, _. split; [reflexivity|]. split; [reflexivity|].
      split; [reflexivity|]. simpl. eauto.
    + unfold bind at 1.
      destruct (collect_sends_general env message (elements (websocket_clients g)) [] g)
        as (tr & r & -> & Hplain & Hr).
      destruct (plain_trace_local tr Hplain) as [Hloc Hnotask].
      destruct r as [tasks|e|]; [| |destruct Hr].
      * unfold bind at 1, gets at 1. cbv beta iota.
        destruct tasks as [|c tasks], (websocket_loop g) as [l|];
          try (eexists _, _; split; [reflexivity|]; simpl; rewrite ?app_nil_r; done).
        rewrite bridge_run. eexists _, _. split; [reflexivity|].
        destruct (bridge_trace_local env (c :: tasks)) as (Hbl & _ & _ & Hbn).
        split; [|split].
        -- simpl. rewrite !forallb_app, Hloc, Hbl. reflexivity.
        -- intros Hcaller. simpl. rewrite !tasks_made_app, Hnotask, (Hbn Hcaller).
           reflexivity.
        -- apply debug_outcome.
      * eexists _, _. split; [reflexivity|]. simpl. rewrite ?app_nil_r. done.
Qed.

(** One call of the hub when every diagnostic write succeeds. *)
Lemma broadcast_run env message g :
  quiet_stdout env ->
  broadcast_log_message env message g = (g, hub_trace env message g, Return tt).
Proof.
  intros Hq.
  unfold broadcast_log_message, hub_trace, bind at 1, tell at 1. cbv beta iota.
  unfold bind at 1, gets at 1. cbv beta iota.
  destruct (decide (websocket_clients g = ∅)) as [Hempty|Hne].
  - rewrite debug_run, Hq. reflexivity.
  - unfold bind at 1. rewrite debug_run, Hq.
    unfold bind at 1. rewrite (collect_sends_run _ _ _ _ _ Hq). cbn [app].
    unfold bind at 1, gets at 1. cbv beta iota. unfold loop_trace.
    destruct (flat_map (task_of env message) (elements (websocket_clients g))) as [|c tasks],
             (websocket_loop g) as [l|];
      try (unfold ret; rewrite ?app_nil_r; reflexivity).
    rewrite bridge_run, Hq. reflexivity.
Qed.

(** What one call of the hub shows, whatever the surroundings do. *)
Lemma broadcast_observed env message g :
  let r := broadcast_log_message env message g in
  state_of r = g /\
  hub_lines (trace_of r) = [message] /\
  sink_chunks (trace_of r) = [] /\
  frames (trace_of r) = [] /\
  submissions (trace_of r) = [] /\
  (caller_loop env <> RunningLoop -> tasks_made (trace_of r) = []) /\
  returned_or_stdout_failed env (outcome_of r).
Proof.
  destruct (broadcast_general env message g) as (tr & r & Heq & Hloc & Htasks & Hr).
  cbv zeta. rewrite Heq. unfold state_of, trace_of, outcome_of. cbn [fst snd].
  destruct (local_trace_quiet tr Hloc) as (Hh & Hs & Hf & Hsub).
  cbn [hub_lines sink_chunks frames submissions tasks_made]. rewrite Hh, Hs, Hf, Hsub. done.
Qed.

Lemma send_traces_calls env message snapshot :
  send_calls (flat_map (send_trace env message) snapshot) = snapshot.
Proof.
  induction snapshot as [|ws rest IH]; simpl; [reflexivity|].
  rewrite send_calls_app, IH.
  destruct (ws_send env ws message); reflexivity.
Qed.

Lemma send_traces_diagnostics env message snapshot :
  diagnostics (flat_map (send_trace env message) snapshot) =
  filter_failures env message snapshot.
Proof.
  unfold filter_failures.
  induction snapshot as [|ws rest IH]; simpl; [reflexivity|].
  rewrite diagnostics_app, IH.
  destruct (ws_send env ws message); reflexivity.
Qed.

Lemma loop_trace_calls env loop tasks : send_calls (loop_trace env loop tasks) = [].
Proof.
  unfold loop_trace. destruct tasks as [|c tasks], loop; try reflexivity.
  rewrite send_calls_app. by destruct (bridge_trace_local env (c :: tasks)) as (_ & -> & _).
Qed.

(** A connection whose [send] returns a coroutine contributes a task. *)
Lemma tasks_nonempty env message snapshot ws :
  In ws snapshot ->
  creates_coroutine (ws_send env ws message) = true ->
  flat_map (task_of env message) snapshot <> [].
Proof.
  induction snapshot as [|x rest IH]; simpl; [done|].
  intros [->|Hin] Hc.
  - unfold task_of. destruct (ws_send env ws message); [discriminate|done|done].
  - intros Happ. apply app_eq_nil in Happ as [_ Hrest]. by apply (IH Hin Hc).
Qed.

(** C1, on the failing input: one healthy connection is registered and the
    event loop has published its handle, yet the connection does not
    receive the line, in the main thread or in a worker thread. *)
Lemma healthy_connection_receives_nothing :
  ~ (let r := broadcast_log_message (main_env good_net) demo_line
                (one_client (Some LoopRunning)) in
     outcome_of r = Return tt /\
     forall ws, ws ∈ websocket_clients (one_client (Some LoopRunning)) ->
       delivers (main_env good_net) demo_line ws = true ->
       In (ws, demo_line) (frames (trace_of r))) /\
  ~ (let r := broadcast_log_message (worker_env good_net) demo_line
                (one_client (Some LoopRunning)) in
     outcome_of r = Return tt /\
     forall ws, ws ∈ websocket_clients (one_client (Some LoopRunning)) ->
       delivers (worker_env good_net) demo_line ws = true ->
       In (ws, demo_line) (frames (trace_of r))).
Proof.
  assert (Hin : 1%nat ∈ websocket_clients (one_client (Some LoopRunning)))
    by (simpl; set_solver).
  split; intros [_ Hall]; specialize (Hall 1%nat Hin eq_refl);
    vm_compute in Hall; exact Hall.
Qed.

(** C1 (the code, against the claim): no call of the hub sends a frame or
    hands work to [websocket_loop], whatever the registry, the loop handle
    and the connections are.  When a connection's [send] has returned a
    coroutine and the handle is published, lines 61-65 raise ([RuntimeError]
    from [gather] in a thread that has no event loop, [TypeError] from
    [run_coroutine_threadsafe], which is given a Future, in any other),
    line 66 catches the exception and line 67 reports it; the call returns
    normally when the diagnostic writes succeed.  Unless a loop is running
    the caller, no task is made of the coroutines either: nothing will ever
    await them, and no connection receives the line. *)
Theorem broadcast_delivers_to_nobody (env : Env) (line : list N) (g : Globals) :
  let r := broadcast_log_message env line g in
  frames (trace_of r) = [] /\
  submissions (trace_of r) = [] /\
  (caller_loop env <> RunningLoop -> tasks_made (trace_of r) = []) /\
  state_of r = g /\
  (quiet_stdout env ->
   outcome_of r = Return tt /\
   forall ws loop,
     ws ∈ websocket_clients g ->
     creates_coroutine (ws_send env ws line) = true ->
     websocket_loop g = Some loop ->
     In (DbgHandlerException (bridge_exception env)) (diagnostics (trace_of r))).
Proof.
  intros r.
  destruct (broadcast_observed env line g) as (Hst & _ & _ & Hf & Hsub & Htasks & _).
  split; [exact Hf|]. split; [exact Hsub|]. split; [exact Htasks|]. split; [exact Hst|].
  intros Hq. subst r. rewrite (broadcast_run _ _ _ Hq).
  unfold outcome_of, trace_of. cbn [fst snd]. split; [reflexivity|].
  intros ws loop Hin Hc Hloop. unfold hub_trace.
  destruct (decide (websocket_clients g = ∅)) as [Hempty|Hne].
  { rewrite Hempty in Hin. set_solver. }
  assert (Hnonempty : flat_map (task_of env line) (elements (websocket_clients g)) <> []).
  { apply (tasks_nonempty env line _ ws); [|exact Hc].
    apply list_elem_of_In, elem_of_elements, Hin. }
  unfold loop_trace. rewrite Hloop.
  destruct (flat_map (task_of env line) (elements (websocket_clients g))) as [|c tasks];
    [done|].
  cbn [diagnostics]. rewrite !diagnostics_app. cbn [diagnostics].
  right. apply in_or_app. right. apply in_or_app. right. left. reflexivity.
Qed.

Lemma broadcast_delivers_to_nobody_witness :
  quiet_stdout (worker_env mixed_net) /\
  caller_loop (worker_env mixed_net) <> RunningLoop /\
  frames (trace_of (broadcast_log_message (worker_env mixed_net) demo_line
                      (three_clients (Some LoopRunning)))) = [] /\
  tasks_made (trace_of (broadcast_log_message (worker_env mixed_net) demo_line
                          (three_clients (Some LoopRunning)))) = [] /\
  outcome_of (broadcast_log_message (worker_env mixed_net) demo_line
                (three_clients (Some LoopRunning))) = Return tt /\
  In (DbgHandlerException RuntimeError)
     (diagnostics (trace_of (broadcast_log_message (worker_env mixed_net) demo_line
                               (three_clients (Some LoopRunning))))).
Proof.
  assert (Hq : quiet_stdout (worker_env mixed_net)) by (intros d; reflexivity).
  assert (Hcaller : caller_loop (worker_env mixed_net) <> RunningLoop) by discriminate.
  split; [exact Hq|]. split; [exact Hcaller|].
  destruct (broadcast_delivers_to_nobody (worker_env mixed_net) demo_line
              (three_clients (Some LoopRunning))) as (Hf & _ & Htasks & _ & Hrest).
  split; [exact Hf|]. split; [exact (Htasks Hcaller)|].
  destruct (Hrest Hq) as [Hout Hlast].
  split; [exact Hout|].
  apply (Hlast 1%nat LoopRunning); [simpl; set_solver | reflexivity | reflexivity].
Defined.

(** C6, as stated, fails: before the handle is published, a line that the
    original stdout cannot encode makes the diagnostic of line 51 raise,
    and the exception reaches the caller. *)
Lemma broadcast_before_loop_can_raise :
  ~ (let r := broadcast_log_message (utf8_env good_net) surrogate_line (one_client None) in
     outcome_of r = Return tt).
Proof. vm_compute. discriminate. Qed.

(** C6 (amended): with the event-loop handle still unset and diagnostic
    writes that succeed, broadcast returns normally; [send] is evaluated
    for every registered connection, but nothing is handed to a loop, no
    frame is sent and no failure is reported: the line is dropped. *)
Theorem broadcast_before_loop_is_dropped (env : Env) (line : list N) (g : Globals) :
  quiet_stdout env ->
  websocket_loop g = None ->
  let r := broadcast_log_message env line g in
  outcome_of r = Return tt /\
  state_of r = g /\
  submissions (trace_of r) = [] /\
  frames (trace_of r) = [] /\
  (forall ws, ws ∈ websocket_clients g -> In ws (send_calls (trace_of r))) /\
  (forall e, ~ In (DbgHandlerException e) (diagnostics (trace_of r))).
Proof.
  intros Hq Hloop r.
  destruct (broadcast_observed env line g) as (Hst & _ & _ & Hf & Hsub & _).
  fold r in Hst, Hf, Hsub.
  assert (Hrun : r = (g, hub_trace env line g, Return tt)) by apply (broadcast_run _ _ _ Hq).
  split; [rewrite Hrun; reflexivity|]. split; [exact Hst|].
  split; [exact Hsub|]. split; [exact Hf|].
  rewrite Hrun. unfold trace_of, hub_trace. cbn [fst snd].
  destruct (decide (websocket_clients g = ∅)) as [Hempty|Hne].
  - split.
    + intros ws Hin. rewrite Hempty in Hin. by apply not_elem_of_empty in Hin.
    + intros e [Heq|[]]. discriminate Heq.
  - rewrite Hloop. cbn [send_calls diagnostics].
    rewrite send_calls_app, diagnostics_app, send_traces_calls, send_traces_diagnostics.
    assert (Hnone : loop_trace env None
              (flat_map (task_of env line) (elements (websocket_clients g))) = []).
    { unfold loop_trace. by destruct (flat_map _ _). }
    rewrite Hnone. cbn [send_calls diagnostics]. rewrite !app_nil_r. split.
    + intros ws Hin. apply list_elem_of_In, elem_of_elements, Hin.
    + intros e [Heq|Hin]; [discriminate Heq|].
      unfold filter_failures in Hin. apply in_flat_map in Hin as (ws & _ & Hin).
      destruct (ws_send env ws line); cbn in Hin; [|done|done].
      destruct Hin as [Heq|[]]. discriminate Heq.
Qed.

Lemma broadcast_before_loop_is_dropped_witness :
  quiet_stdout (main_env mixed_net) /\
  websocket_loop (three_clients None) = None /\
  outcome_of (broadcast_log_message (main_env mixed_net) demo_line (three_clients None))
    = Return tt /\
  frames (trace_of (broadcast_log_message (main_env mixed_net) demo_line (three_clients None)))
    = [] /\
  In 2%nat (send_calls (trace_of
    (broadcast_log_message (main_env mixed_net) demo_line (three_clients None)))).
Proof.
  assert (Hq : quiet_stdout (main_env mixed_net)) by (intros d; reflexivity).
  split; [exact Hq|]. split; [reflexivity|].
  destruct (broadcast_before_loop_is_dropped (main_env mixed_net) demo_line
              (three_clients None) Hq eq_refl)
    as (Hout & _ & _ & Hframes & Hcalls & _).
  split; [exact Hout|]. split; [exact Hframes|].
  apply Hcalls. simpl. set_solver.
Defined.

(** Lines 47-49. *)
Lemma broadcast_empty_run env message g :
  websocket_clients g = ∅ ->
  broadcast_log_message env message g =
  (g, [EvHub message; EvDebug (DbgNoClients message)],
   match stdout_fails env (DbgNoClients message) with
   | None => Return tt
   | Some e => Raise e
   end).
Proof.
  intros Hempty.
  unfold broadcast_log_message, bind at 1, tell at 1. cbv beta iota.
  unfold bind at 1, gets at 1. cbv beta iota.
  destruct (decide (websocket_clients g = ∅)) as [_|Hne]; [|contradiction].
  rewrite debug_run. reflexivity.
Qed.

(** C8, as stated, fails: with an empty registry, a line that the original
    stdout cannot encode makes the diagnostic of line 48 raise, and the
    call does not return successfully. *)
Lemma broadcast_to_nobody_can_raise :
  ~ (let r := broadcast_log_message (utf8_env good_net) surrogate_line (no_clients None) in
     outcome_of r = Return tt).
Proof. vm_compute. discriminate. Qed.

(** C8 (amended): with an empty registry, broadcast writes the diagnostic
    of line 48 and does nothing else: no [ws.send] is evaluated, nothing
    is submitted to the event loop, no frame is sent; it returns normally
    unless that diagnostic write raises, and then raises what it raised. *)
Theorem broadcast_to_nobody_is_noop (env : Env) (line : list N) (g : Globals) :
  websocket_clients g = ∅ ->
  let r := broadcast_log_message env line g in
  trace_of r = [EvHub line; EvDebug (DbgNoClients line)] /\
  state_of r = g /\
  send_calls (trace_of r) = [] /\
  submissions (trace_of r) = [] /\
  frames (trace_of r) = [] /\
  outcome_of r =
    match stdout_fails env (DbgNoClients line) with
    | None => Return tt
    | Some e => Raise e
    end.
Proof.
  intros Hempty r. subst r. rewrite (broadcast_empty_run _ _ _ Hempty).
  unfold trace_of, state_of, outcome_of. cbn.
  repeat split; reflexivity.
Qed.

Lemma broadcast_to_nobody_is_noop_witness :
  websocket_clients (no_clients (Some LoopRunning)) = ∅ /\
  outcome_of (broadcast_log_message (main_env good_net) demo_line
                (no_clients (Some LoopRunning))) = Return tt /\
  send_calls (trace_of
    (broadcast_log_message (main_env good_net) demo_line (no_clients (Some LoopRunning)))) = [].
Proof.
  split; [reflexivity|].
  destruct (broadcast_to_nobody_is_noop (main_env good_net) demo_line
              (no_clients (Some LoopRunning)) eq_refl)
    as (_ & _ & Hcalls & _ & _ & Hout).
  split; [exact Hout | exact Hcalls].
Defined.

(** ** Splitting at line terminators *)

Lemma split_nl_nonempty s : PyStr.split_nl s <> [].
Proof.
  destruct s as [|c s]; simpl; [discriminate|].
  destruct (c =? PyStr.NL); [discriminate|].
  destruct (PyStr.split_nl s); discriminate.
Qed.


Lemma split_nl_pieces s :
  Forall (fun piece => PyStr.contains_nl piece = false) (PyStr.split_nl s).
Proof.
  induction s as [|c s IH]; cbn [PyStr.split_nl].
  - repeat constructor.
  - destruct (N.eqb_spec c PyStr.NL) as [->|Hne].
    + constructor; [reflexivity | exact IH].
    + assert (Hc : (PyStr.NL =? c) = false) by (apply N.eqb_neq; congruence).
      destruct (PyStr.split_nl s) as [|l ls].
      * repeat constructor. unfold PyStr.contains_nl. cbn [existsb]. rewrite Hc. reflexivity.
      * inversion IH as [|? ? Hl Hls]; subst. constructor; [|exact Hls].
        unfold PyStr.contains_nl in *. cbn [existsb]. rewrite Hc. exact Hl.
Qed.

Lemma split_nl_no_terminator s :
  PyStr.contains_nl s = false -> PyStr.split_nl s = [s].
Proof.
  unfold PyStr.contains_nl.
  induction s as [|c s IH]; cbn [existsb PyStr.split_nl]; [reflexivity|].
  rewrite (N.eqb_sym PyStr.NL c). destruct (c =? PyStr.NL); cbn [orb]; [discriminate|].
  intros Hs. rewrite (IH Hs). reflexivity.
Qed.

Lemma Forall_removelast {A} (P : A -> Prop) (l : list A) :
  Forall P l -> Forall P (removelast l).
Proof.
  induction 1 as [|x l Hx Hl IH]; simpl; [constructor|].
  destruct l; [constructor|]. constructor; assumption.
Qed.

Lemma Forall_last {A} (P : A -> Prop) (l : list A) (d : A) :
  Forall P l -> P d -> P (List.last l d).
Proof.
  induction 1 as [|x l Hx Hl IH]; simpl; intros Hd; [exact Hd|].
  destruct l; [exact Hx|]. apply IH, Hd.
Qed.

(** ** Trimming *)

Lemma lstrip_snoc a c :
  PyStr.lstrip (a ++ [c]) =
  match PyStr.lstrip a with
  | [] => if PyStr.isspace c then [] else [c]
  | l => l ++ [c]
  end.
Proof.
  induction a as [|x a IH]; cbn [app PyStr.lstrip].
  - destruct (PyStr.isspace c); reflexivity.
  - destruct (PyStr.isspace x); [exact IH | reflexivity].
Qed.

(** [rstrip], read from the front. *)
Lemma rstrip_cons c s :
  PyStr.rstrip (c :: s) =
  match PyStr.rstrip s with
  | [] => if PyStr.isspace c then [] else [c]
  | l => c :: l
  end.
Proof.
  unfold PyStr.rstrip. cbn [rev]. rewrite lstrip_snoc.
  destruct (PyStr.lstrip (rev s)) as [|x l]; cbn [rev].
  - destruct (PyStr.isspace c); reflexivity.
  - rewrite rev_app_distr. cbn [rev app].
    destruct (rev l ++ [x]) as [|y l'] eqn:Hrev; [|reflexivity].
    apply app_eq_nil in Hrev as [_ Hx]. discriminate.
Qed.

Lemma rstrip_nil : PyStr.rstrip [] = [].
Proof. reflexivity. Qed.

Lemma lstrip_clean_head c s : PyStr.isspace c = false -> PyStr.lstrip (c :: s) = c :: s.
Proof. intros Hc. cbn [PyStr.lstrip]. rewrite Hc. reflexivity. Qed.

Lemma lstrip_head s c l : PyStr.lstrip s = c :: l -> PyStr.isspace c = false.
Proof.
  induction s as [|x s IH]; cbn [PyStr.lstrip]; [discriminate|].
  destruct (PyStr.isspace x) eqn:Hx; [exact IH|].
  intros [= -> _]. exact Hx.
Qed.

Lemma rstrip_idempotent s : PyStr.rstrip (PyStr.rstrip s) = PyStr.rstrip s.
Proof.
  induction s as [|c s IH]; [reflexivity|].
  rewrite rstrip_cons. destruct (PyStr.rstrip s) as [|x l] eqn:Hs.
  - destruct (PyStr.isspace c) eqn:Hc; [reflexivity|].
    rewrite rstrip_cons, rstrip_nil, Hc. reflexivity.
  - rewrite rstrip_cons, IH. reflexivity.
Qed.

Lemma rstrip_keeps_head c s x l :
  PyStr.rstrip (c :: s) = x :: l -> x = c.
Proof.
  rewrite rstrip_cons. destruct (PyStr.rstrip s); [destruct (PyStr.isspace c)|];
    congruence.
Qed.

Lemma strip_idempotent s : PyStr.strip (PyStr.strip s) = PyStr.strip s.
Proof.
  unfold PyStr.strip.
  destruct (PyStr.lstrip s) as [|c t] eqn:Hs; [reflexivity|].
  pose proof (lstrip_head _ _ _ Hs) as Hc.
  destruct (PyStr.rstrip (c :: t)) as [|x l] eqn:Hr; [reflexivity|].
  pose proof (rstrip_keeps_head _ _ _ _ Hr) as ->.
  rewrite (lstrip_clean_head _ _ Hc), <- Hr. apply rstrip_idempotent.
Qed.

Lemma lstrip_existsb (f : N -> bool) s :
  existsb f s = false -> existsb f (PyStr.lstrip s) = false.
Proof.
  induction s as [|c s IH]; cbn [PyStr.lstrip existsb]; [reflexivity|].
  intros [Hc Hs]%orb_false_elim.
  destruct (PyStr.isspace c); [exact (IH Hs)|].
  cbn [existsb]. rewrite Hc, Hs. reflexivity.
Qed.

Lemma rstrip_existsb (f : N -> bool) s :
  existsb f s = false -> existsb f (PyStr.rstrip s) = false.
Proof.
  induction s as [|c s IH]; [reflexivity|].
  cbn [existsb]. intros [Hc Hs]%orb_false_elim. rewrite rstrip_cons.
  specialize (IH Hs). destruct (PyStr.rstrip s) as [|x l].
  - destruct (PyStr.isspace c); cbn [existsb]; rewrite ?Hc; reflexivity.
  - cbn [existsb] in *. rewrite Hc, IH. reflexivity.
Qed.

Lemma strip_no_terminator s :
  PyStr.contains_nl s = false -> PyStr.contains_nl (PyStr.strip s) = false.
Proof.
  unfold PyStr.contains_nl, PyStr.strip. intros Hs.
  apply rstrip_existsb, lstrip_existsb, Hs.
Qed.

Lemma lstrip_all_space s : forallb PyStr.isspace s = true -> PyStr.lstrip s = [].
Proof.
  induction s as [|c s IH]; cbn [forallb PyStr.lstrip]; [reflexivity|].
  intros [Hc Hs]%andb_prop. rewrite Hc. exact (IH Hs).
Qed.

Lemma strip_all_space s : forallb PyStr.isspace s = true -> PyStr.strip s = [].
Proof. intros Hs. unfold PyStr.strip. rewrite (lstrip_all_space _ Hs). reflexivity. Qed.

Lemma split_nl_forallb (p : N -> bool) s :
  forallb p s = true -> Forall (fun piece => forallb p piece = true) (PyStr.split_nl s).
Proof.
  induction s as [|c s IH]; cbn [forallb PyStr.split_nl].
  - intros _. repeat constructor.
  - intros [Hc Hs]%andb_prop. specialize (IH Hs).
    destruct (c =? PyStr.NL); [constructor; [reflexivity | exact IH]|].
    destruct (PyStr.split_nl s) as [|l ls].
    + repeat constructor. cbn [forallb]. rewrite Hc. reflexivity.
    + inversion IH as [|? ? Hl Hls]; subst. constructor; [|exact Hls].
      cbn [forallb]. rewrite Hc, Hl. reflexivity.
Qed.

(** Splitting a text in two steps: the pieces before the first text's last
    terminator, then the split of what follows it. *)
Lemma split_nl_app x y :
  PyStr.split_nl (x ++ y) =
  removelast (PyStr.split_nl x) ++ PyStr.split_nl (List.last (PyStr.split_nl x) [] ++ y).
Proof.
  induction x as [|c x IH]; cbn [app PyStr.split_nl removelast List.last]; [reflexivity|].
  pose proof (split_nl_nonempty x) as Hx.
  destruct (c =? PyStr.NL) eqn:Hc.
  - destruct (PyStr.split_nl x) as [|l ls] eqn:Hsx; [contradiction|].
    cbn [removelast List.last app]. rewrite IH. reflexivity.
  - rewrite IH. destruct (PyStr.split_nl x) as [|l ls] eqn:Hsx; [contradiction|].
    destruct ls as [|l' ls']; cbn [removelast List.last app].
    + cbn [PyStr.split_nl]. rewrite Hc.
      pose proof (split_nl_nonempty (l ++ y)) as Hly.
      destruct (PyStr.split_nl (l ++ y)); [contradiction | reflexivity].
    + reflexivity.
Qed.

Lemma removelast_app_nonempty {A} (l1 l2 : list A) :
  l2 <> [] -> removelast (l1 ++ l2) = l1 ++ removelast l2.
Proof. intros Hne. by apply removelast_app. Qed.

Lemma last_app_nonempty {A} (l1 l2 : list A) (d : A) :
  l2 <> [] -> List.last (l1 ++ l2) d = List.last l2 d.
Proof.
  intros Hne. induction l1 as [|x l1 IH]; [reflexivity|].
  cbn [app List.last]. destruct (l1 ++ l2) eqn:Happ; [|exact IH].
  apply app_eq_nil in Happ as [_ ->]. contradiction.
Qed.

(** ** The line assembler, continued *)

Lemma lines_of_app x y :
  lines_of (x ++ y) = lines_of x ++ lines_of (List.last (PyStr.split_nl x) [] ++ y).
Proof.
  unfold lines_of. rewrite split_nl_app.
  rewrite removelast_app_nonempty by apply split_nl_nonempty.
  rewrite map_app. apply List.filter_app.
Qed.

Lemma last_split_nl_app x y :
  List.last (PyStr.split_nl (x ++ y)) [] =
  List.last (PyStr.split_nl (List.last (PyStr.split_nl x) [] ++ y)) [].
Proof. rewrite split_nl_app. apply last_app_nonempty, split_nl_nonempty. Qed.

Lemma last_split_nl_no_terminator s :
  PyStr.contains_nl (List.last (PyStr.split_nl s) []) = false.
Proof. apply Forall_last; [apply split_nl_pieces | reflexivity]. Qed.

Lemma lines_of_are_log_lines text : Forall log_line (lines_of text).
Proof.
  unfold lines_of.
  pose proof (Forall_removelast _ _ (split_nl_pieces text)) as Hpieces.
  induction Hpieces as [|seg segs Hseg _ IH]; cbn [map List.filter]; [constructor|].
  destruct (PyStr.truthy (PyStr.strip seg)) eqn:Htruthy; [|exact IH].
  constructor; [|exact IH]. split; [|split].
  - intros Hnil. rewrite Hnil in Htruthy. discriminate.
  - apply strip_idempotent.
  - apply strip_no_terminator, Hseg.
Qed.

(** ** The line assembler *)

Lemma hub_trace_local env message g :
  exists tr, hub_trace env message g = EvHub message :: tr /\ forallb is_local tr = true.
Proof.
  unfold hub_trace. eexists. split; [reflexivity|].
  destruct (decide (websocket_clients g = ∅)); [reflexivity|].
  cbn [forallb is_local andb]. rewrite forallb_app. apply andb_true_intro. split.
  - induction (elements (websocket_clients g)) as [|ws rest IH]; [reflexivity|].
    cbn [flat_map]. rewrite forallb_app, IH. unfold send_trace.
    destruct (ws_send env ws message); reflexivity.
  - unfold loop_trace.
    destruct (flat_map _ _) as [|c tasks], (websocket_loop g); try reflexivity.
    rewrite forallb_app. by destruct (bridge_trace_local env (c :: tasks)) as (-> & _).
Qed.

Lemma hub_trace_hub_lines env message g : hub_lines (hub_trace env message g) = [message].
Proof.
  destruct (hub_trace_local env message g) as (tr & -> & Hloc).
  cbn [hub_lines]. by destruct (local_trace_quiet tr Hloc) as (-> & _).
Qed.

Lemma hub_trace_sink_chunks env message g : sink_chunks (hub_trace env message g) = [].
Proof.
  destruct (hub_trace_local env message g) as (tr & -> & Hloc).
  cbn [sink_chunks]. by destruct (local_trace_quiet tr Hloc) as (_ & -> & _).
Qed.

Section TeeFacts.
Context {S : Type} `{Stream S}.

(** Lines 81-83 when every diagnostic write succeeds. *)
Lemma emit_line_run env line (w : Globals * TeeLoggerStream S) :
  quiet_stdout env ->
  emit_line env line w = (w, line_trace env (fst w) line, Return tt).
Proof.
  intros Hq. unfold emit_line, line_trace. destruct w as [g t].
  destruct (PyStr.truthy _); [|reflexivity].
  unfold on_globals. cbn [fst snd]. rewrite (broadcast_run _ _ _ Hq). reflexivity.
Qed.

Lemma for_each_emit_line_run env lines (w : Globals * TeeLoggerStream S) :
  quiet_stdout env ->
  for_each lines (emit_line env) w =
  (w, flat_map (line_trace env (fst w)) lines, Return tt).
Proof.
  intros Hq. induction lines as [|line rest IH]; simpl; [reflexivity|].
  unfold bind. rewrite (emit_line_run _ _ _ Hq), IH. reflexivity.
Qed.

Lemma line_traces_hub_lines env g lines :
  hub_lines (flat_map (line_trace env g) lines) =
  List.filter PyStr.truthy (map PyStr.strip lines).
Proof.
  induction lines as [|line rest IH]; simpl; [reflexivity|].
  rewrite hub_lines_app, IH. unfold line_trace.
  destruct (PyStr.truthy (PyStr.strip line)); [|reflexivity].
  rewrite hub_trace_hub_lines. reflexivity.
Qed.

Lemma line_traces_sink_chunks env g lines :
  sink_chunks (flat_map (line_trace env g) lines) = [].
Proof.
  induction lines as [|line rest IH]; simpl; [reflexivity|].
  rewrite sink_chunks_app, IH. unfold line_trace.
  destruct (PyStr.truthy (PyStr.strip line)); [|reflexivity].
  rewrite hub_trace_sink_chunks. reflexivity.
Qed.

(** One extracted line, whatever the diagnostic writes do. *)
Lemma emit_line_general env line (w : Globals * TeeLoggerStream S) :
  exists tr r,
    emit_line env line w = (w, tr, r) /\
    hub_lines tr = (if PyStr.truthy (PyStr.strip line) then [PyStr.strip line] else []) /\
    sink_chunks tr = [] /\ frames tr = [] /\ submissions tr = [] /\
    returned_or_stdout_failed env r.
Proof.
  destruct w as [g t]. unfold emit_line.
  destruct (PyStr.truthy (PyStr.strip line)).
  - unfold on_globals. cbn [fst snd].
    destruct (broadcast_general env (PyStr.strip line) g) as (tr1 & r1 & -> & Hloc & _ & Hr1).
    destruct (local_trace_quiet tr1 Hloc) as (Hh1 & Hs1 & Hf1 & Hsub1).
    eexists _, _. split; [reflexivity|].
    cbn [hub_lines sink_chunks frames submissions]. rewrite Hh1. done.
  - exists [], (Return tt). done.
Qed.

(** Lines 81-83, whatever the diagnostic writes do: the loop stops at the
    first hub call that raises, and the lines handed over until then are
    the first of the trimmed, non-empty ones. *)
Lemma for_each_emit_general env lines (w : Globals * TeeLoggerStream S) :
  exists tr r,
    for_each lines (emit_line env) w = (w, tr, r) /\
    (exists k, hub_lines tr = firstn k (List.filter PyStr.truthy (map PyStr.strip lines))) /\
    (r = Return tt -> hub_lines tr = List.filter PyStr.truthy (map PyStr.strip lines)) /\
    sink_chunks tr = [] /\ frames tr = [] /\ submissions tr = [] /\
    returned_or_stdout_failed env r.
Proof.
  induction lines as [|line rest IH]; cbn [for_each map List.filter].
  - exists [], (Return tt). split; [reflexivity|]. split; [by exists 0%nat|]. done.
  - destruct IH as (tr & r & IHrun & (k & IHk) & IHret & IHs & IHf & IHsub & IHr).
    unfold bind.
    destruct (emit_line_general env line w) as (tr1 & r1 & -> & Hh1 & Hs1 & Hf1 & Hsub1 & Hr1).
    destruct r1 as [[]|e|]; [| |destruct Hr1].
    + rewrite IHrun. eexists _, _. split; [reflexivity|].
      rewrite hub_lines_app, sink_chunks_app, frames_app, submissions_app.
      rewrite Hh1, Hs1, Hf1, Hsub1, IHs, IHf, IHsub.
      destruct (PyStr.truthy (PyStr.strip line)); cbn [app].
      * split; [exists (Datatypes.S k); cbn [firstn]; by rewrite IHk|].
        split; [intros Hret; by rewrite (IHret Hret)|]. done.
      * split; [by exists k|]. done.
    + eexists _, _. split; [reflexivity|]. rewrite Hh1.
      split; [|done].
      destruct (PyStr.truthy (PyStr.strip line)); [by exists 1%nat | by exists 0%nat].
Qed.

(** The ways a [write] can go. *)
Lemma write_sink_write_fails env message g (t : TeeLoggerStream S) s1 r :
  stream_write (original_stream t) message = (s1, r) ->
  (forall u, r <> Return u) ->
  write env message (g, t) =
  ((g, {| original_stream := s1; _buffer := _buffer t |}), [EvSinkWrite message], r).
Proof.
  intros Hw Hr. unfold write, bind at 1, on_tee at 1, sink_call at 1. cbn [fst snd].
  rewrite Hw. destruct r as [u|e|]; [by destruct (Hr u)|reflexivity|reflexivity].
Qed.

Lemma write_sink_write_raises env message g (t : TeeLoggerStream S) s1 e :
  stream_write (original_stream t) message = (s1, Raise e) ->
  write env message (g, t) =
  ((g, {| original_stream := s1; _buffer := _buffer t |}), [EvSinkWrite message], Raise e).
Proof. intros Hw. by apply write_sink_write_fails. Qed.

Lemma write_sink_flush_fails env message g (t : TeeLoggerStream S) s1 s2 u r :
  stream_write (original_stream t) message = (s1, Return u) ->
  stream_flush s1 = (s2, r) ->
  (forall u, r <> Return u) ->
  write env message (g, t) =
  ((g, {| original_stream := s2; _buffer := _buffer t |}),
   [EvSinkWrite message; EvSinkFlush], r).
Proof.
  intros Hw Hf Hr. unfold write, bind at 1, on_tee at 1, sink_call at 1. cbn [fst snd].
  rewrite Hw. unfold bind at 1, on_tee at 1, sink_call at 1. cbn [fst snd original_stream].
  rewrite Hf. destruct r as [u'|e|]; [by destruct (Hr u')|reflexivity|reflexivity].
Qed.

Lemma write_sink_flush_raises env message g (t : TeeLoggerStream S) s1 s2 u e :
  stream_write (original_stream t) message = (s1, Return u) ->
  stream_flush s1 = (s2, Raise e) ->
  write env message (g, t) =
  ((g, {| original_stream := s2; _buffer := _buffer t |}),
   [EvSinkWrite message; EvSinkFlush], Raise e).
Proof. intros Hw Hf. by apply (write_sink_flush_fails _ _ _ _ s1 s2 u). Qed.

(** The sink takes the chunk, and every diagnostic write succeeds. *)
Lemma write_sink_ok env message g (t : TeeLoggerStream S) s1 s2 u1 u2 :
  quiet_stdout env ->
  stream_write (original_stream t) message = (s1, Return u1) ->
  stream_flush s1 = (s2, Return u2) ->
  let lines := PyStr.split_nl (_buffer t ++ message) in
  write env message (g, t) =
  ((g, {| original_stream := s2; _buffer := List.last lines [] |}),
   [EvSinkWrite message; EvSinkFlush] ++ flat_map (line_trace env g) (removelast lines),
   Return tt).
Proof.
  intros Hq Hw Hf lines. subst lines.
  unfold write, bind at 1, on_tee at 1, sink_call at 1. cbn [fst snd].
  rewrite Hw. unfold bind at 1, on_tee at 1, sink_call at 1. cbn [fst snd original_stream].
  rewrite Hf. unfold bind at 1, on_tee at 1, modify at 1. cbn [fst snd].
  unfold bind at 1, on_tee at 1, gets at 1. cbn [fst snd set_buffer _buffer original_stream].
  destruct (PyStr.contains_nl (_buffer t ++ message)) eqn:Hnl.
  - unfold bind at 1. rewrite (for_each_emit_line_run _ _ _ Hq).
    unfold on_tee, modify, set_buffer. cbn [fst snd original_stream _buffer].
    rewrite app_nil_r. reflexivity.
  - rewrite (split_nl_no_terminator _ Hnl). unfold ret. cbn [removelast List.last flat_map].
    reflexivity.
Qed.

(** The sink takes the chunk, whatever the diagnostic writes do: when a
    hub call raises, line 84 is not reached and the buffer keeps the whole
    text. *)
Lemma write_sink_ok_general env message g (t : TeeLoggerStream S) s1 s2 u1 u2 :
  stream_write (original_stream t) message = (s1, Return u1) ->
  stream_flush s1 = (s2, Return u2) ->
  exists tr r,
    write env message (g, t) =
    ((g, {| original_stream := s2;
            _buffer := match r with
                       | Return _ => List.last (PyStr.split_nl (_buffer t ++ message)) []
                       | _ => _buffer t ++ message
                       end |}),
     [EvSinkWrite message; EvSinkFlush] ++ tr, r) /\
    (exists k, hub_lines tr = firstn k (lines_of (_buffer t ++ message))) /\
    (r = Return tt -> hub_lines tr = lines_of (_buffer t ++ message)) /\
    sink_chunks tr = [] /\ frames tr = [] /\ submissions tr = [] /\
    returned_or_stdout_failed env r.
Proof.
  intros Hw Hf.
  unfold write, bind at 1, on_tee at 1, sink_call at 1. cbn [fst snd].
  rewrite Hw. unfold bind at 1, on_tee at 1, sink_call at 1. cbn [fst snd original_stream].
  rewrite Hf. unfold bind at 1, on_tee at 1, modify at 1. cbn [fst snd].
  unfold bind at 1, on_tee at 1, gets at 1. cbn [fst snd set_buffer _buffer original_stream].
  destruct (PyStr.contains_nl (_buffer t ++ message)) eqn:Hnl.
  - unfold bind at 1.
    match goal with
    | |- context [for_each ?l _ ?w] =>
        destruct (for_each_emit_general env l w)
          as (tr & r & -> & Hk & Hret & Hs & Hf' & Hsub & Hr)
    end.
    destruct r as [[]|e|]; [| |destruct Hr].
    + unfold on_tee, modify, set_buffer. cbn [fst snd original_stream _buffer].
      exists tr, (Return tt). rewrite app_nil_r. split; [reflexivity|]. done.
    + exists tr, (Raise e). split; [reflexivity|]. done.
  - unfold ret. exists [], (Return tt).
    rewrite (split_nl_no_terminator _ Hnl). cbn [List.last].
    split; [reflexivity|]. unfold lines_of.
    rewrite (split_nl_no_terminator _ Hnl). cbn [removelast map List.filter hub_lines].
    split; [by exists 0%nat|]. done.
Qed.


(** The lines one write hands to the hub are the first of the lines of the
    text it sees. *)
Lemma write_hub_lines env chunk g (t : TeeLoggerStream S) :
  exists k, hub_lines (trace_of (write env chunk (g, t)))
            = firstn k (lines_of (_buffer t ++ chunk)).
Proof.
  destruct (stream_write (original_stream t) chunk) as [s1 r1] eqn:Hw.
  destruct r1 as [u1|e|].
  - destruct (stream_flush s1) as [s2 r2] eqn:Hf.
    destruct r2 as [u2|e|].
    + destruct (write_sink_ok_general env chunk g t s1 s2 u1 u2 Hw Hf)
        as (tr & r & -> & (k & Hk) & _).
      exists k. unfold trace_of. cbn [fst snd app hub_lines]. exact Hk.
    + rewrite (write_sink_flush_fails env chunk g t s1 s2 u1 (Raise e) Hw Hf) by done.
      by exists 0%nat.
    + rewrite (write_sink_flush_fails env chunk g t s1 s2 u1 Cancelled Hw Hf) by done.
      by exists 0%nat.
  - rewrite (write_sink_write_fails env chunk g t s1 (Raise e) Hw) by done. by exists 0%nat.
  - rewrite (write_sink_write_fails env chunk g t s1 Cancelled Hw) by done. by exists 0%nat.
Qed.

End TeeFacts.








(** C5, as stated, fails for [close]: it does not perform the sink's
    close; the wrapped stream stays open and no call reaches it. *)
Lemma close_leaves_sink_open :
  ~ (state_of (close (fresh_tee None None)) = state_of (close_delegating (fresh_tee None None)) /\
     trace_of (close (fresh_tee None None)) = trace_of (close_delegating (fresh_tee None None))).
Proof.
  intros [_ Htr]. vm_compute in Htr. discriminate Htr.
Qed.

(** C5 (amended): [flush] calls the sink's flush and does nothing else;
    [close] does nothing at all, the sink is not closed; neither hands
    anything to the hub, and both leave the partial-line buffer as it is. *)
Theorem flush_and_close_keep_partial_line
    (S : Type) (HS : Stream S) (w : Globals * TeeLoggerStream S) :
  (let r := flush w in
   trace_of r = [EvSinkFlush] /\
   original_stream (snd (state_of r)) = fst (stream_flush (original_stream (snd w))) /\
   outcome_of r = snd (stream_flush (original_stream (snd w))) /\
   _buffer (snd (state_of r)) = _buffer (snd w) /\
   fst (state_of r) = fst w /\
   hub_lines (trace_of r) = []) /\
  (let r := close w in
   trace_of r = [] /\ state_of r = w /\ outcome_of r = Return tt).
Proof.
  split.
  - unfold flush, on_tee, sink_call, trace_of, state_of, outcome_of.
    destruct w as [g t]. cbn [fst snd].
    destruct (stream_flush (original_stream t)) as [s' r']. cbn.
    repeat split; reflexivity.
  - unfold close, ret, trace_of, state_of, outcome_of. cbn. repeat split; reflexivity.
Qed.

(** C9, as stated, fails: the sink takes the chunk, the registry is empty,
    and the diagnostic of line 48, written on the broadcast path, raises;
    the exception reaches the caller of [write]. *)
Lemma diagnostic_failure_escapes_write :
  ~ (forall s1 s2,
       stream_write (original_stream (snd tee_alone)) surrogate_chunk = (s1, Return tt) ->
       stream_flush s1 = (s2, Return tt) ->
       outcome_of (write (utf8_env good_net) surrogate_chunk tee_alone) = Return tt).
Proof.
  intros Hall. specialize (Hall _ _ eq_refl eq_refl).
  vm_compute in Hall. discriminate Hall.
Qed.

(** C9 (amended): a failure of the original sink's write is raised,
    unchanged, by the tee's write; once the sink has taken the chunk, the
    write returns normally whatever the connections and the event loop do,
    provided the diagnostic writes succeed; what it raises otherwise is
    the exception of a diagnostic write. *)
Theorem write_raises_only_sink_failures
    (S : Type) (HS : Stream S) (env : Env)
    (chunk : list N) (g : Globals) (t : TeeLoggerStream S) :
  (forall s1 e, stream_write (original_stream t) chunk = (s1, Raise e) ->
                outcome_of (write env chunk (g, t)) = Raise e) /\
  (forall s1 s2, stream_write (original_stream t) chunk = (s1, Return tt) ->
                 stream_flush s1 = (s2, Return tt) ->
                 returned_or_stdout_failed env (outcome_of (write env chunk (g, t))) /\
                 (quiet_stdout env -> outcome_of (write env chunk (g, t)) = Return tt)).
Proof.
  split.
  - intros s1 e Hw. rewrite (write_sink_write_raises env chunk g t s1 e Hw). reflexivity.
  - intros s1 s2 Hw Hf. split.
    + destruct (write_sink_ok_general env chunk g t s1 s2 tt tt Hw Hf)
        as (tr & r & -> & _ & _ & _ & _ & _ & Hr).
      exact Hr.
    + intros Hq. rewrite (write_sink_ok env chunk g t s1 s2 tt tt Hq Hw Hf). reflexivity.
Qed.

Lemma write_raises_only_sink_failures_witness :
  (stream_write (fresh_sink (Some OSError) None) chunk_c_nl_d
     = (fresh_sink (Some OSError) None, Raise OSError) /\
   outcome_of (write (main_env good_net) chunk_c_nl_d (fresh_tee (Some OSError) None))
     = Raise OSError) /\
  (stream_write (fresh_sink None None) chunk_c_nl_d
     = (fst (stream_write (fresh_sink None None) chunk_c_nl_d), Return tt) /\
   quiet_stdout (worker_env hostile_net) /\
   outcome_of (write (worker_env hostile_net) chunk_c_nl_d
                 (three_clients (Some LoopRunning), init (fresh_sink None None)))
     = Return tt).
Proof.
  assert (Hq : quiet_stdout (worker_env hostile_net)) by (intros d; reflexivity).
  split.
  - split; [reflexivity|].
    exact (proj1 (write_raises_only_sink_failures RecSink RecSink_Stream (main_env good_net)
                    chunk_c_nl_d (one_client (Some LoopRunning))
                    (init (fresh_sink (Some OSError) None)))
                 _ _ eq_refl).
  - split; [reflexivity|]. split; [exact Hq|].
    exact (proj2 (proj2 (write_raises_only_sink_failures RecSink RecSink_Stream
                           (worker_env hostile_net) chunk_c_nl_d
                           (three_clients (Some LoopRunning))
                           (init (fresh_sink None None)))
                        _ _ eq_refl eq_refl) Hq).
Defined.

(** C10: when the sink's write, or the flush right after it, raises, the
    tee's write raises that failure with the partial-line buffer and the
    registry untouched and nothing handed to the hub. *)
Theorem failed_write_leaves_buffer
    (S : Type) (HS : Stream S) (env : Env)
    (chunk : list N) (g : Globals) (t : TeeLoggerStream S) (s' : S) (e : Exception) :
  stream_write (original_stream t) chunk = (s', Raise e) \/
  (exists s1, stream_write (original_stream t) chunk = (s1, Return tt) /\
              stream_flush s1 = (s', Raise e)) ->
  let r := write env chunk (g, t) in
  outcome_of r = Raise e /\
  _buffer (snd (state_of r)) = _buffer t /\
  fst (state_of r) = g /\
  hub_lines (trace_of r) = [] /\
  frames (trace_of r) = [].
Proof.
  intros [Hw | (s1 & Hw & Hf)] r; subst r.
  - rewrite (write_sink_write_raises env chunk g t s' e Hw). repeat split; reflexivity.
  - rewrite (write_sink_flush_raises env chunk g t s1 s' tt e Hw Hf). repeat split; reflexivity.
Qed.

Lemma failed_write_leaves_buffer_witness :
  (stream_write (original_stream (snd tee_flush_failing)) chunk_c_nl_d
     = (fst (stream_write (fresh_sink None (Some OSError)) chunk_c_nl_d), Raise OSError) \/
   exists s1, stream_write (original_stream (snd tee_flush_failing)) chunk_c_nl_d
                = (s1, Return tt) /\
              stream_flush s1
                = (fst (stream_write (fresh_sink None (Some OSError)) chunk_c_nl_d),
                   Raise OSError)) /\
  outcome_of (write (main_env good_net) chunk_c_nl_d tee_flush_failing) = Raise OSError /\
  _buffer (snd (state_of (write (main_env good_net) chunk_c_nl_d tee_flush_failing)))
    = PyStr.of_string "ab" /\
  hub_lines (trace_of (write (main_env good_net) chunk_c_nl_d tee_flush_failing)) = [].
Proof.
  assert (Hyp :
    stream_write (original_stream (snd tee_flush_failing)) chunk_c_nl_d
      = (fst (stream_write (fresh_sink None (Some OSError)) chunk_c_nl_d), Raise OSError) \/
    exists s1, stream_write (original_stream (snd tee_flush_failing)) chunk_c_nl_d
                 = (s1, Return tt) /\
               stream_flush s1
                 = (fst (stream_write (fresh_sink None (Some OSError)) chunk_c_nl_d),
                    Raise OSError)).
  { right. eexists. split; reflexivity. }
  split; [exact Hyp|].
  destruct (failed_write_leaves_buffer RecSink RecSink_Stream (main_env good_net) chunk_c_nl_d
              (fst tee_flush_failing) (snd tee_flush_failing) _ OSError Hyp)
    as (Hout & Hbuf & _ & Hhub & _).
  repeat split; assumption.
Defined.

(** ** The registry *)


Lemma removed_is_absent (ws : nat) (X : gset nat) : ws ∉ X ∖ {[ws]}.
Proof. rewrite elem_of_difference, elem_of_singleton. intros [_ Hn]. by apply Hn. Qed.

Lemma clients_remove_present ws g :
  ws ∈ websocket_clients g ->
  clients_remove ws g = (set_clients (fun s => s ∖ {[ws]}) g, [], Return tt).
Proof. intros Hin. unfold clients_remove. destruct (decide _); [reflexivity | contradiction]. Qed.

Lemma clients_remove_absent ws g :
  ws ∉ websocket_clients g -> clients_remove ws g = (g, [], Raise KeyError).
Proof. intros Hnotin. unfold clients_remove. destruct (decide _); [contradiction | reflexivity]. Qed.

(** C4, as stated, fails: the second removal of a connection is not a
    silent no-op, [set.remove] raises [KeyError]. *)
Lemma second_remove_raises :
  ~ (outcome_of (clients_remove 1 (state_of (clients_remove 1 (one_client None))))
     = Return tt).
Proof. vm_compute. discriminate. Qed.

(** C4 (amended): removing a registered connection raises nothing and
    takes it out of the registry; a second removal raises [KeyError] and
    changes nothing; after either call the registry is without it. *)
Theorem remove_twice (ws : nat) (g : Globals) :
  let r1 := clients_remove ws g in
  let r2 := clients_remove ws (state_of r1) in
  (ws ∈ websocket_clients g ->
   outcome_of r1 = Return tt /\
   websocket_clients (state_of r1) = websocket_clients g ∖ {[ws]}) /\
  outcome_of r2 = Raise KeyError /\
  state_of r2 = state_of r1 /\
  (ws ∉ websocket_clients (state_of r1)) /\
  (ws ∉ websocket_clients (state_of r2)).
Proof.
  intros r1 r2.
  assert (Hgone : ws ∉ websocket_clients (state_of r1)).
  { subst r1. destruct (decide (ws ∈ websocket_clients g)) as [Hin|Hnotin].
    - rewrite (clients_remove_present _ _ Hin). apply removed_is_absent.
    - rewrite (clients_remove_absent _ _ Hnotin). exact Hnotin. }
  assert (Hr2 : r2 = (state_of r1, [], Raise KeyError)).
  { subst r2. apply clients_remove_absent, Hgone. }
  split.
  - intros Hin. subst r1. rewrite (clients_remove_present _ _ Hin). split; reflexivity.
  - rewrite Hr2. cbn. repeat split; exact Hgone.
Qed.

Lemma remove_twice_witness :
  1%nat ∈ websocket_clients (three_clients None) /\
  outcome_of (clients_remove 1 (three_clients None)) = Return tt /\
  outcome_of (clients_remove 1 (state_of (clients_remove 1 (three_clients None))))
    = Raise KeyError.
Proof.
  assert (Hin : 1%nat ∈ websocket_clients (three_clients None)) by (simpl; set_solver).
  split; [exact Hin|].
  destruct (remove_twice 1 (three_clients None)) as (Hfirst & Hsecond & _).
  split; [exact (proj1 (Hfirst Hin)) | exact Hsecond].
Defined.

(** ** The connection handler *)




(** Lines 23-24. *)
Lemma handler_enter_run env ws g :
  handler_enter env ws g =
  (set_clients (fun s => {[ws]} ∪ s) g,
   [EvDebug (DbgConnected (size ({[ws]} ∪ websocket_clients g)))],
   match stdout_fails env (DbgConnected (size ({[ws]} ∪ websocket_clients g))) with
   | None => Return tt
   | Some e => Raise e
   end).
Proof.
  unfold handler_enter, clients_add, bind at 1, modify. cbv beta iota.
  unfold bind at 1, gets. cbv beta iota. rewrite debug_run. reflexivity.
Qed.

Lemma read_end_run env r (g : Globals) :
  try_except
    (match r with
     | ReadClosed => ret tt
     | ReadError e => raise e
     | ReadCancelled => cancel
     end)
    (fun e => debug env (DbgRecvException e)) g =
  (g, read_end_trace r,
   match r with
   | ReadClosed => Return tt
   | ReadError e =>
       match stdout_fails env (DbgRecvException e) with
       | None => Return tt
       | Some e' => Raise e'
       end
   | ReadCancelled => Cancelled
   end).
Proof.
  unfold try_except. destruct r as [|e|]; try reflexivity.
  unfold raise. rewrite debug_run. reflexivity.
Qed.


(** Lines 25-32 for a connection the registry does not hold. *)
Lemma handler_leave_run_absent env ws r g :
  ws ∉ websocket_clients g ->
  handler_leave env ws r g = (g, read_end_trace r, Raise KeyError).
Proof.
  intros Hout. unfold handler_leave, try_finally. rewrite read_end_run.
  unfold handler_finally, bind at 1. rewrite (clients_remove_absent _ _ Hout).
  rewrite app_nil_r. reflexivity.
Qed.



(** X5: the exit path of the handler, run for a connection the registry
    does not hold, raises [KeyError] out of the [finally] block, even when
    the read loop's own exception had been caught; the registry is left as
    it is and the disconnect diagnostic of line 32 is not printed. *)
Theorem handler_leave_unregistered_raises
    (env : Env) (ws : nat) (r : ReadEnd) (g : Globals) :
  ws ∉ websocket_clients g ->
  let run := handler_leave env ws r g in
  outcome_of run = Raise KeyError /\
  state_of run = g /\
  diagnostics (trace_of run) =
    match r with
    | ReadClosed => []
    | ReadError e => [DbgRecvException e]
    | ReadCancelled => []
    end.
Proof.
  intros Hout run. subst run. rewrite (handler_leave_run_absent _ _ _ _ Hout).
  unfold outcome_of, state_of, trace_of. cbn [fst snd].
  repeat split; destruct r; reflexivity.
Qed.

Lemma handler_leave_unregistered_raises_witness :
  (1%nat ∉ websocket_clients (no_clients None)) /\
  outcome_of (handler_leave (main_env good_net) 1 (ReadError OSError) (no_clients None))
    = Raise KeyError /\
  diagnostics (trace_of (handler_leave (main_env good_net) 1 (ReadError OSError)
                           (no_clients None)))
    = [DbgRecvException OSError].
Proof.
  assert (Hout : 1%nat ∉ websocket_clients (no_clients None)) by apply not_elem_of_empty.
  split; [exact Hout|].
  destruct (handler_leave_unregistered_raises (main_env good_net) 1 (ReadError OSError)
              (no_clients None) Hout)
    as (Hraise & _ & Hdiag).
  split; [exact Hraise | exact Hdiag].
Defined.



(** X20: the diagnostic of line 24 is outside the [try]: when its write raises,
    the handler raises before the read loop is entered, the [finally]
    block does not run, and the connection stays in the registry. *)
Theorem failed_connect_diagnostic_leaks_connection
    (env : Env) (ws : nat) (r : ReadEnd) (g : Globals) (e : Exception) :
  stdout_fails env (DbgConnected (size ({[ws]} ∪ websocket_clients g))) = Some e ->
  let run := websocket_handler env ws r g in
  outcome_of run = Raise e /\
  websocket_clients (state_of run) = {[ws]} ∪ websocket_clients g /\
  ws ∈ websocket_clients (state_of run) /\
  trace_of run = [EvDebug (DbgConnected (size ({[ws]} ∪ websocket_clients g)))].
Proof.
  intros Hfail run. subst run.
  unfold websocket_handler, bind. rewrite handler_enter_run, Hfail.
  unfold outcome_of, state_of, trace_of. cbn.
  repeat split. apply elem_of_union_l, elem_of_singleton. reflexivity.
Qed.

Lemma failed_connect_diagnostic_leaks_connection_witness :
  stdout_fails (closed_stdout_env good_net)
    (DbgConnected (size ({[4%nat]} ∪ websocket_clients (three_clients None)))) = Some OSError /\
  outcome_of (websocket_handler (closed_stdout_env good_net) 4 ReadClosed (three_clients None))
    = Raise OSError /\
  4%nat ∈ websocket_clients
    (state_of (websocket_handler (closed_stdout_env good_net) 4 ReadClosed (three_clients None))).
Proof.
  split; [reflexivity|].
  destruct (failed_connect_diagnostic_leaks_connection (closed_stdout_env good_net) 4
              ReadClosed (three_clients None) OSError eq_refl) as (Hout & _ & Hin & _).
  split; [exact Hout | exact Hin].
Defined.

(** ** The line assembler, continued *)

Lemma write_ok_summary {S : Type} `{Stream S} env chunk g (t : TeeLoggerStream S) s1 s2 u1 u2 :
  quiet_stdout env ->
  stream_write (original_stream t) chunk = (s1, Return u1) ->
  stream_flush s1 = (s2, Return u2) ->
  let r := write env chunk (g, t) in
  outcome_of r = Return tt /\
  fst (state_of r) = g /\
  original_stream (snd (state_of r)) = s2 /\
  _buffer (snd (state_of r)) = List.last (PyStr.split_nl (_buffer t ++ chunk)) [] /\
  hub_lines (trace_of r) = lines_of (_buffer t ++ chunk).
Proof.
  intros Hq Hw Hf r. subst r. rewrite (write_sink_ok env chunk g t s1 s2 u1 u2 Hq Hw Hf).
  unfold outcome_of, state_of, trace_of. cbn [fst snd original_stream _buffer].
  repeat split. rewrite hub_lines_app. cbn [hub_lines app]. apply line_traces_hub_lines.
Qed.

(** Lines 76-79 when the text seen holds no terminator. *)
Lemma write_no_terminator {S : Type} `{Stream S} env chunk g (t : TeeLoggerStream S)
    s1 s2 u1 u2 :
  stream_write (original_stream t) chunk = (s1, Return u1) ->
  stream_flush s1 = (s2, Return u2) ->
  PyStr.contains_nl (_buffer t ++ chunk) = false ->
  write env chunk (g, t) =
  ((g, {| original_stream := s2; _buffer := _buffer t ++ chunk |}),
   [EvSinkWrite chunk; EvSinkFlush], Return tt).
Proof.
  intros Hw Hf Hnl.
  unfold write, bind at 1, on_tee at 1, sink_call at 1. cbn [fst snd].
  rewrite Hw. unfold bind at 1, on_tee at 1, sink_call at 1. cbn [fst snd original_stream].
  rewrite Hf. unfold bind at 1, on_tee at 1, modify at 1. cbn [fst snd].
  unfold bind at 1, on_tee at 1, gets at 1. cbn [fst snd set_buffer _buffer original_stream].
  rewrite Hnl. reflexivity.
Qed.

(** X7: a write that returns normally leaves a partial-line buffer without
    a line terminator, whatever the buffer held before. *)
Theorem tee_buffer_never_holds_terminator
    (S : Type) (HS : Stream S) (env : Env)
    (chunk : list N) (g : Globals) (t : TeeLoggerStream S) :
  let r := write env chunk (g, t) in
  outcome_of r = Return tt ->
  PyStr.contains_nl (_buffer (snd (state_of r))) = false.
Proof.
  cbv zeta.
  destruct (stream_write (original_stream t) chunk) as [s1 r1] eqn:Hw.
  destruct r1 as [u1|e|].
  - destruct (stream_flush s1) as [s2 r2] eqn:Hf.
    destruct r2 as [u2|e|].
    + destruct (write_sink_ok_general env chunk g t s1 s2 u1 u2 Hw Hf)
        as (tr & r & -> & _).
      unfold outcome_of, state_of. cbn [fst snd _buffer]. intros ->.
      apply last_split_nl_no_terminator.
    + rewrite (write_sink_flush_fails env chunk g t s1 s2 u1 (Raise e) Hw Hf) by done.
      discriminate.
    + rewrite (write_sink_flush_fails env chunk g t s1 s2 u1 Cancelled Hw Hf) by done.
      discriminate.
  - rewrite (write_sink_write_fails env chunk g t s1 (Raise e) Hw) by done. discriminate.
  - rewrite (write_sink_write_fails env chunk g t s1 Cancelled Hw) by done. discriminate.
Qed.

Lemma tee_buffer_never_holds_terminator_witness :
  outcome_of (write (main_env good_net) chunk_c_nl_d tee_holding_ab) = Return tt /\
  PyStr.contains_nl
    (_buffer (snd (state_of (write (main_env good_net) chunk_c_nl_d tee_holding_ab)))) = false.
Proof.
  assert (Hout : outcome_of (write (main_env good_net) chunk_c_nl_d tee_holding_ab) = Return tt)
    by (vm_compute; reflexivity).
  split; [exact Hout|].
  exact (tee_buffer_never_holds_terminator RecSink RecSink_Stream (main_env good_net)
           chunk_c_nl_d (fst tee_holding_ab) (snd tee_holding_ab) Hout).
Defined.

(** X8: what the hub receives and what stays buffered depend only on the
    text written, not on how it was cut into chunks: starting from a
    terminator-free buffer, when the sink takes every chunk, every
    diagnostic write succeeds and no [send] returns a coroutine, a
    sequence of writes emits the lines of "buffer followed by all the
    chunks" and leaves its unterminated end buffered, as one write of the
    whole text would. *)
Theorem line_assembly_ignores_chunking
    (S : Type) (HS : Stream S) (env : Env)
    (chunks : list (list N)) (g : Globals) (t : TeeLoggerStream S) :
  quiet_stdout env ->
  no_coroutine env g ->
  PyStr.contains_nl (_buffer t) = false ->
  sink_accepts chunks (original_stream t) ->
  let r := write_all env chunks (g, t) in
  hub_lines (trace_of r) = lines_of (_buffer t ++ concat chunks) /\
  _buffer (snd (state_of r)) = List.last (PyStr.split_nl (_buffer t ++ concat chunks)) [] /\
  Forall (fun o => o = Return tt) (outcome_of r).
Proof.
  intros Hq _. revert t. induction chunks as [|chunk rest IH]; intros t Hbuf Hacc;
    cbn [write_all concat].
  - unfold trace_of, state_of, outcome_of, lines_of. cbn [fst snd hub_lines].
    rewrite app_nil_r, (split_nl_no_terminator _ Hbuf). repeat split. constructor.
  - cbn [sink_accepts] in Hacc.
    destruct (stream_write (original_stream t) chunk) as [s1 [u1|e|]] eqn:Hw;
      [|contradiction|contradiction].
    destruct (stream_flush s1) as [s2 [u2|e|]] eqn:Hf; [|contradiction|contradiction].
    destruct (write_ok_summary env chunk g t s1 s2 u1 u2 Hq Hw Hf)
      as (Hout & Hg & Hsink & Hb1 & Hlines).
    destruct (write env chunk (g, t)) as [[[g1 t1] tr1] r1].
    unfold outcome_of, state_of, trace_of in Hout, Hg, Hsink, Hb1, Hlines.
    cbn [fst snd] in Hout, Hg, Hsink, Hb1, Hlines. subst r1 g1.
    assert (Hbuf1 : PyStr.contains_nl (_buffer t1) = false)
      by (rewrite Hb1; apply last_split_nl_no_terminator).
    rewrite <- Hsink in Hacc.
    destruct (IH t1 Hbuf1 Hacc) as (IHlines & IHbuf & IHout).
    destruct (write_all env rest (g, t1)) as [[w2 tr2] rs].
    unfold outcome_of, state_of, trace_of in IHlines, IHbuf, IHout |- *.
    cbn [fst snd] in IHlines, IHbuf, IHout |- *.
    rewrite hub_lines_app, Hlines, IHlines, IHbuf, Hb1.
    rewrite !(app_assoc (_buffer t) chunk (concat rest)).
    rewrite (lines_of_app (_buffer t ++ chunk) (concat rest)).
    rewrite (last_split_nl_app (_buffer t ++ chunk) (concat rest)).
    repeat split. constructor; [reflexivity | exact IHout].
Qed.

(** The chunks ["ab"], ["c\nd"], ["\n"] *)
Lemma line_assembly_ignores_chunking_witness :
  quiet_stdout (main_env closed_net) /\
  no_coroutine (main_env closed_net) (one_client None) /\
  PyStr.contains_nl (_buffer (init (fresh_sink None None))) = false /\
  sink_accepts [PyStr.of_string "ab"; chunk_c_nl_d; [PyStr.NL]] (fresh_sink None None) /\
  hub_lines (trace_of (write_all (main_env closed_net)
                         [PyStr.of_string "ab"; chunk_c_nl_d; [PyStr.NL]]
                         (one_client None, init (fresh_sink None None))))
    = [PyStr.of_string "abc"; PyStr.of_string "d"].
Proof.
  assert (Hq : quiet_stdout (main_env closed_net)) by (intros d; reflexivity).
  assert (Hn : no_coroutine (main_env closed_net) (one_client None))
    by (intros ws message _; reflexivity).
  assert (Hacc : sink_accepts [PyStr.of_string "ab"; chunk_c_nl_d; [PyStr.NL]]
                   (fresh_sink None None)) by exact I.
  split; [exact Hq|]. split; [exact Hn|]. split; [reflexivity|]. split; [exact Hacc|].
  destruct (line_assembly_ignores_chunking RecSink RecSink_Stream (main_env closed_net)
              [PyStr.of_string "ab"; chunk_c_nl_d; [PyStr.NL]]
              (one_client None) (init (fresh_sink None None)) Hq Hn eq_refl Hacc)
    as (Hlines & _ & _).
  rewrite Hlines. vm_compute. reflexivity.
Defined.

(** X9: every line a tee hands to the hub, over any sequence of writes and
    whatever the sink does, is a well-formed log line: it is not empty, it
    has no whitespace left to trim at either end, and it holds no line
    terminator. *)
Theorem tee_emits_only_log_lines
    (S : Type) (HS : Stream S) (env : Env)
    (chunks : list (list N)) (w : Globals * TeeLoggerStream S) :
  Forall log_line (hub_lines (trace_of (write_all env chunks w))).
Proof.
  revert w. induction chunks as [|chunk rest IH]; intros [g t]; cbn [write_all].
  - constructor.
  - destruct (write_hub_lines env chunk g t) as [k Hhead].
    destruct (write env chunk (g, t)) as [[w1 tr1] r1].
    specialize (IH w1). destruct (write_all env rest w1) as [[w2 tr2] rs].
    unfold trace_of in *. cbn [fst snd] in *. rewrite hub_lines_app.
    apply Forall_app. split; [|exact IH].
    rewrite Hhead. apply Forall_take, lines_of_are_log_lines.
Qed.

Lemma lines_of_blank text : forallb PyStr.isspace text = true -> lines_of text = [].
Proof.
  intros Hblank. unfold lines_of.
  pose proof (Forall_removelast _ _ (split_nl_forallb PyStr.isspace text Hblank)) as Hpieces.
  induction Hpieces as [|seg segs Hseg _ IH]; cbn [map List.filter]; [reflexivity|].
  rewrite (strip_all_space _ Hseg). exact IH.
Qed.

(** X10: blank text is never broadcast: when the buffer followed by the
    chunk holds nothing but whitespace (terminators included), the write
    hands no line to the hub, whatever the sink does. *)
Theorem blank_text_emits_nothing
    (S : Type) (HS : Stream S) (env : Env)
    (chunk : list N) (g : Globals) (t : TeeLoggerStream S) :
  forallb PyStr.isspace (_buffer t ++ chunk) = true ->
  hub_lines (trace_of (write env chunk (g, t))) = [].
Proof.
  intros Hblank. destruct (write_hub_lines env chunk g t) as [k ->].
  rewrite (lines_of_blank _ Hblank). by destruct k.
Qed.

Lemma blank_text_emits_nothing_witness :
  forallb PyStr.isspace (_buffer (init (fresh_sink None None)) ++ blank_text) = true /\
  PyStr.contains_nl blank_text = true /\
  hub_lines (trace_of (write (main_env good_net) blank_text
                         (one_client (Some LoopRunning), init (fresh_sink None None)))) = [].
Proof.
  split; [reflexivity|]. split; [reflexivity|].
  exact (blank_text_emits_nothing RecSink RecSink_Stream (main_env good_net) blank_text
           (one_client (Some LoopRunning)) (init (fresh_sink None None)) eq_refl).
Defined.

(** X12: a write that brings no line terminator, into a buffer that holds
    none, only forwards and buffers: the sink's write and flush are the
    only events (the hub is not called, nothing is printed or sent), and
    the chunk is appended to the buffer. *)
Theorem write_without_terminator_only_buffers
    (S : Type) (HS : Stream S) (env : Env)
    (chunk : list N) (g : Globals) (t : TeeLoggerStream S) (s1 s2 : S) :
  stream_write (original_stream t) chunk = (s1, Return tt) ->
  stream_flush s1 = (s2, Return tt) ->
  PyStr.contains_nl (_buffer t ++ chunk) = false ->
  let r := write env chunk (g, t) in
  trace_of r = [EvSinkWrite chunk; EvSinkFlush] /\
  _buffer (snd (state_of r)) = _buffer t ++ chunk /\
  outcome_of r = Return tt.
Proof.
  intros Hw Hf Hnl r. subst r.
  rewrite (write_no_terminator env chunk g t s1 s2 tt tt Hw Hf Hnl).
  unfold trace_of, state_of, outcome_of. cbn. repeat split.
Qed.

Lemma write_without_terminator_only_buffers_witness :
  stream_write (original_stream (snd tee_holding_ab)) (PyStr.of_string "cd")
    = (fst (stream_write (fresh_sink None None) (PyStr.of_string "cd")), Return tt) /\
  stream_flush (fst (stream_write (fresh_sink None None) (PyStr.of_string "cd")))
    = (fst (stream_flush (fst (stream_write (fresh_sink None None) (PyStr.of_string "cd")))),
       Return tt) /\
  PyStr.contains_nl (_buffer (snd tee_holding_ab) ++ PyStr.of_string "cd") = false /\
  trace_of (write (main_env good_net) (PyStr.of_string "cd") tee_holding_ab)
    = [EvSinkWrite (PyStr.of_string "cd"); EvSinkFlush] /\
  _buffer (snd (state_of (write (main_env good_net) (PyStr.of_string "cd") tee_holding_ab)))
    = PyStr.of_string "abcd".
Proof.
  split; [reflexivity|]. split; [reflexivity|]. split; [reflexivity|].
  destruct (write_without_terminator_only_buffers RecSink RecSink_Stream (main_env good_net)
              (PyStr.of_string "cd") (fst tee_holding_ab) (snd tee_holding_ab) _ _
              eq_refl eq_refl eq_refl) as (Htrace & Hbuf & _).
  split; [exact Htrace | exact Hbuf].
Defined.

(** ** The hub, continued *)

Lemma collect_sends_calls env message snapshot acc g :
  exists k, send_calls (trace_of (collect_sends env message snapshot acc g)) = firstn k snapshot.
Proof.
  revert acc. induction snapshot as [|ws rest IH]; intros acc; cbn [collect_sends].
  - by exists 0%nat.
  - unfold bind. rewrite collect_send_run.
    destruct (ws_send env ws message) as [e| |e] eqn:Hsend.
    + destruct (stdout_fails env (DbgFilterFailed e)) as [e'|].
      * by exists 1%nat.
      * destruct (IH acc) as [k Hk].
        destruct (collect_sends env message rest acc g) as [[g' tr] r].
        exists (Datatypes.S k). unfold trace_of in *. cbn [fst snd] in *.
        cbn [app send_calls firstn]. by rewrite Hk.
    + destruct (IH (acc ++ task_of env message ws)) as [k Hk].
      destruct (collect_sends env message rest _ g) as [[g' tr] r].
      exists (Datatypes.S k). unfold trace_of in *. cbn [fst snd] in *.
      cbn [app send_calls firstn]. by rewrite Hk.
    + destruct (IH (acc ++ task_of env message ws)) as [k Hk].
      destruct (collect_sends env message rest _ g) as [[g' tr] r].
      exists (Datatypes.S k). unfold trace_of in *. cbn [fst snd] in *.
      cbn [app send_calls firstn]. by rewrite Hk.
Qed.

Lemma broadcast_calls_prefix env message g :
  exists k, send_calls (trace_of (broadcast_log_message env message g))
            = firstn k (elements (websocket_clients g)).
Proof.
  unfold broadcast_log_message, bind at 1, tell at 1. cbv beta iota.
  unfold bind at 1, gets at 1. cbv beta iota.
  destruct (decide (websocket_clients g = ∅)) as [Hempty|Hne].
  - rewrite debug_run. by exists 0%nat.
  - unfold bind at 1. rewrite debug_run.
    destruct (stdout_fails env (DbgBroadcast message (size (websocket_clients g)))) as [e|].
    + by exists 0%nat.
    + unfold bind at 1.
      destruct (collect_sends_calls env message (elements (websocket_clients g)) [] g)
        as [k Hk].
      destruct (collect_sends_general env message (elements (websocket_clients g)) [] g)
        as (tr & r & Heq & _ & _).
      rewrite Heq in Hk |- *. unfold trace_of in Hk. cbn [fst snd] in Hk.
      exists k. destruct r as [tasks|e|].
      * unfold bind at 1, gets at 1. cbv beta iota.
        destruct tasks as [|c tasks], (websocket_loop g) as [l|];
          rewrite ?bridge_run; unfold ret, trace_of; cbn [fst snd app send_calls];
          rewrite ?send_calls_app; cbn [send_calls];
          try (destruct (bridge_trace_local env (c :: tasks)) as (_ & -> & _));
          rewrite ?app_nil_r; exact Hk.
      * unfold trace_of. cbn [fst snd app send_calls]. rewrite ?app_nil_r. exact Hk.
      * unfold trace_of. cbn [fst snd app send_calls]. rewrite ?app_nil_r. exact Hk.
Qed.

Lemma NoDup_firstn {A} (k : nat) (l : list A) : NoDup l -> NoDup (firstn k l).
Proof.
  intros Hl. revert k. induction Hl as [|x l Hx Hl IH]; intros [|k]; cbn; try constructor.
  - intros Hin. apply Hx. eapply subseteq_take. exact Hin.
  - apply IH.
Qed.

(** X1: one broadcast evaluates [ws.send(message)] at most once for each
    connection of the registry snapshot, in snapshot order, and for no
    other; when the diagnostic writes succeed, exactly once for every
    connection of the snapshot, whatever the sends do and whether or not
    the loop handle is set. *)
Theorem broadcast_calls_send_once_each (env : Env) (message : list N) (g : Globals) :
  let r := broadcast_log_message env message g in
  (exists k, send_calls (trace_of r) = firstn k (elements (websocket_clients g))) /\
  NoDup (send_calls (trace_of r)) /\
  (forall ws, In ws (send_calls (trace_of r)) -> ws ∈ websocket_clients g) /\
  (quiet_stdout env -> send_calls (trace_of r) = elements (websocket_clients g)).
Proof.
  intros r. subst r.
  destruct (broadcast_calls_prefix env message g) as [k Hk].
  split; [by exists k|]. split; [|split].
  - rewrite Hk. apply NoDup_firstn, NoDup_elements.
  - intros ws Hin. rewrite Hk in Hin. apply elem_of_elements.
    apply list_elem_of_In in Hin. eapply subseteq_take. exact Hin.
  - intros Hq. rewrite (broadcast_run _ _ _ Hq). unfold trace_of. cbn [fst snd].
    unfold hub_trace. cbn [send_calls].
    destruct (decide (websocket_clients g = ∅)) as [He|Hne]; cbn [send_calls].
    + rewrite He, elements_empty. reflexivity.
    + rewrite send_calls_app, send_traces_calls, loop_trace_calls. apply app_nil_r.
Qed.

Lemma broadcast_calls_send_once_each_witness :
  quiet_stdout (worker_env mixed_net) /\
  length (send_calls (trace_of (broadcast_log_message (worker_env mixed_net) demo_line
                                  (three_clients None)))) = 3%nat.
Proof.
  assert (Hq : quiet_stdout (worker_env mixed_net)) by (intros d; reflexivity).
  split; [exact Hq|].
  destruct (broadcast_calls_send_once_each (worker_env mixed_net) demo_line
              (three_clients None)) as (_ & _ & _ & Hall).
  rewrite (Hall Hq). vm_compute. reflexivity.
Defined.

(** X3: when the loop handle is set and at least one [send] has returned a
    coroutine, lines 61-65 raise; with diagnostic writes that succeed,
    broadcast still returns normally and leaves the globals as they are,
    the call sends no frame although every coroutine was created, and the
    diagnostics are the broadcast notice, one notice per [ws.send] that
    raised, and then the exception of lines 61-65, reported once. *)
Theorem broadcast_reports_refused_submission
    (env : Env) (message : list N) (g : Globals) (loop : EventLoop) :
  quiet_stdout env ->
  websocket_loop g = Some loop ->
  List.filter (fun ws => creates_coroutine (ws_send env ws message))
    (elements (websocket_clients g)) <> [] ->
  let r := broadcast_log_message env message g in
  outcome_of r = Return tt /\
  state_of r = g /\
  frames (trace_of r) = [] /\
  diagnostics (trace_of r) =
    DbgBroadcast message (size (websocket_clients g)) ::
    filter_failures env message (elements (websocket_clients g)) ++
    [DbgHandlerException (bridge_exception env)].
Proof.
  intros Hq Hloop Hsent r.
  destruct (broadcast_observed env message g) as (_ & _ & _ & Hf & _).
  fold r in Hf. split; [|split; [|split; [exact Hf|]]];
    subst r; rewrite (broadcast_run _ _ _ Hq); [reflexivity|reflexivity|].
  unfold trace_of. cbn [fst snd]. unfold hub_trace. cbn [diagnostics].
  destruct (decide (websocket_clients g = ∅)) as [He|Hne].
  - rewrite He, elements_empty in Hsent. contradiction.
  - cbn [diagnostics]. rewrite diagnostics_app, send_traces_diagnostics, Hloop.
    assert (Htasks : flat_map (task_of env message) (elements (websocket_clients g)) <> []).
    { destruct (List.filter _ _) as [|ws rest] eqn:Hfilter; [contradiction|].
      assert (Hin : In ws (List.filter
                (fun ws => creates_coroutine (ws_send env ws message))
                (elements (websocket_clients g)))) by (rewrite Hfilter; left; reflexivity).
      apply List.filter_In in Hin as [Hin Hc].
      exact (tasks_nonempty env message _ ws Hin Hc). }
    unfold loop_trace.
    destruct (flat_map (task_of env message) (elements (websocket_clients g)))
      as [|c tasks]; [contradiction|].
    rewrite diagnostics_app.
    by destruct (bridge_trace_local env (c :: tasks)) as (_ & _ & -> & _).
Qed.

Lemma broadcast_reports_refused_submission_witness :
  quiet_stdout (worker_env mixed_net) /\
  websocket_loop (three_clients (Some LoopRunning)) = Some LoopRunning /\
  List.filter (fun ws => creates_coroutine (ws_send (worker_env mixed_net) ws demo_line))
    (elements (websocket_clients (three_clients (Some LoopRunning)))) <> [] /\
  frames (trace_of (broadcast_log_message (worker_env mixed_net) demo_line
                      (three_clients (Some LoopRunning)))) = [] /\
  diagnostics (trace_of (broadcast_log_message (worker_env mixed_net) demo_line
                           (three_clients (Some LoopRunning)))) =
    DbgBroadcast demo_line 3 ::
    filter_failures (worker_env mixed_net) demo_line
      (elements (websocket_clients (three_clients (Some LoopRunning)))) ++
    [DbgHandlerException RuntimeError].
Proof.
  assert (Hq : quiet_stdout (worker_env mixed_net)) by (intros d; reflexivity).
  assert (Hsent : List.filter
            (fun ws => creates_coroutine (ws_send (worker_env mixed_net) ws demo_line))
            (elements (websocket_clients (three_clients (Some LoopRunning))))
            <> []) by (vm_compute; discriminate).
  split; [exact Hq|]. split; [reflexivity|]. split; [exact Hsent|].
  destruct (broadcast_reports_refused_submission (worker_env mixed_net) demo_line
              (three_clients (Some LoopRunning)) LoopRunning Hq eq_refl Hsent)
    as (_ & _ & Hframes & Hdiag).
  split; [exact Hframes | exact Hdiag].
Defined.





(** X19: the adapter's [emit] never changes the globals.  A record that
    formats to a text hands that text to the hub exactly once and
    unchanged: unlike the line assembler it neither trims it nor drops it
    when empty.  A record whose formatting raises hands nothing to the
    hub; the exception is reported by one diagnostic.  [emit] returns
    normally when the diagnostic writes succeed; what it raises otherwise
    is the exception of a diagnostic write, the one of line 102 included,
    which no [try] guards. *)
Theorem emit_contains_failures
    (format : Logging.LogRecord -> Outcome (list N)) (env : Env)
    (record : Logging.LogRecord) (g : Globals) :
  let r := Logging.emit format env record g in
  state_of r = g /\
  match format record with
  | Return text =>
      hub_lines (trace_of r) = [text] /\
      returned_or_stdout_failed env (outcome_of r) /\
      (quiet_stdout env -> outcome_of r = Return tt)
  | Raise e =>
      trace_of r = [EvDebug (DbgHandlerException e)] /\
      outcome_of r = match stdout_fails env (DbgHandlerException e) with
                     | None => Return tt
                     | Some e' => Raise e'
                     end
  | Cancelled => trace_of r = [] /\ outcome_of r = Cancelled
  end.
Proof.
  intros r. subst r. unfold Logging.emit, try_except, bind.
  destruct (format record) as [text|e|]; unfold ret, raise, cancel.
  - destruct (broadcast_general env text g) as (tr & r & Heq & Hloc & _ & Hr).
    destruct (local_trace_quiet tr Hloc) as (Hh & _).
    pose proof (broadcast_run env text g) as Hrun.
    rewrite Heq in Hrun |- *.
    destruct r as [[]|e|]; [| |destruct Hr].
    + unfold state_of, trace_of, outcome_of. cbn [fst snd app hub_lines].
      rewrite Hh. done.
    + rewrite debug_run.
      unfold state_of, trace_of, outcome_of. cbn [fst snd app hub_lines].
      rewrite hub_lines_app, Hh. cbn [hub_lines app].
      split; [reflexivity|]. split; [reflexivity|].
      split; [apply debug_outcome|].
      intros Hq. specialize (Hrun Hq). discriminate Hrun.
  - rewrite debug_run. unfold state_of, trace_of, outcome_of. cbn. done.
  - done.
Qed.

Lemma emit_contains_failures_witness :
  quiet_stdout (main_env good_net) /\
  outcome_of (Logging.emit (fun r => Return (Logging.msg r)) (main_env good_net)
                {| Logging.levelno := 20; Logging.msg := demo_line |}
                (one_client (Some LoopRunning))) = Return tt /\
  hub_lines (trace_of (Logging.emit (fun r => Return (Logging.msg r)) (main_env good_net)
                         {| Logging.levelno := 20; Logging.msg := demo_line |}
                         (one_client (Some LoopRunning)))) = [demo_line].
Proof.
  assert (Hq : quiet_stdout (main_env good_net)) by (intros d; reflexivity).
  split; [exact Hq|].
  destruct (emit_contains_failures (fun r => Return (Logging.msg r)) (main_env good_net)
              {| Logging.levelno := 20; Logging.msg := demo_line |}
              (one_client (Some LoopRunning))) as (_ & Hhub & _ & Hout).
  split; [exact (Hout Hq) | exact Hhub].
Defined.

(** ** The logging rewire *)

Section LoggingFacts.
Import Logging.





Lemma fixupParents_keeps name d k e :
  d !! k = Some e -> fixupParents name d !! k = Some e.
Proof.
  revert d. induction name as [|c parent IH]; intros d Hk; cbn [fixupParents]; [exact Hk|].
  destruct (d !! (c :: parent)) as [[l|]|] eqn:Hname; [exact Hk | apply IH, Hk |].
  apply IH. rewrite lookup_insert_ne; [exact Hk|]. congruence.
Qed.








End LoggingFacts.

Section RewireFacts.
Import Logging.


















End RewireFacts.

Section RewireUse.
Import Logging.














End RewireUse.




(** ** The logging rewire, continued *)











Section LaterLoggers.
Import Logging.


End LaterLoggers.



